(** * sandman2.model: the [Model] base class of RESTful resources

    A shallow embedding of [src/sandman2/model.py].  Instances live in a
    store of objects addressed by references, attribute access and
    assignment are the operations of a small state-and-exception monad,
    and every method of [Model] is a computation in that monad, written
    statement by statement after the Python text.

    The methods are those of an ordinary instance, one that hides no
    class attribute and no method behind an attribute of its own
    ([ordinary] below): [self.__url__], [self.__table__] and the methods
    called on [self] are read from the class.  [update] can assign such
    an attribute; [call] is the call of a method by name as a caller
    writes it, and what is proved of the calls that follow an [update]
    is proved of ordinary instances and of mappings that assign no such
    name. *)

From Stdlib Require Import ZArith String List.
From Stdlib Require Import Floats.SpecFloat.
From stdpp Require Import gmap strings list fin_maps pretty.

Open Scope Z_scope.

(** ** The Python values the methods handle *)

(** [decimal.Decimal]: a number [(-1)^sign * coefficient * 10^exponent],
    an infinity, or a NaN, quiet or signalling. *)
Inductive decimal :=
  | Decimal (sign : bool) (coefficient : N) (exponent : Z)
  | DInfinity (sign : bool)
  | DNaN (signalling : bool).

(** [float]: an IEEE 754 binary64 number. *)
Definition prec : Z := 53.
Definition emax : Z := 1024.

(** The binary64 number nearest to [(-1)^sign * c * 10^e], ties to even;
    a magnitude beyond the largest float gives an infinity, a magnitude
    below half the least subnormal gives a zero. *)
Definition nearest_float (sign : bool) (c : N) (e : Z) : spec_float :=
  match c with
  | N0 => S754_zero sign
  | Npos c =>
      if (0 <=? e)%Z
      then binary_round prec emax sign (c * Z.to_pos (10 ^ e))%positive 0
      else
        let '(q, e', l) :=
          SFdiv_core_binary prec emax (Zpos c) 0 (10 ^ (- e)) 0 in
        binary_round_aux prec emax sign q e' l
  end.

(** [float(d)] for a [Decimal] [d].  A signalling NaN has no float:
    [float] raises [ValueError] there, which [None] stands for. *)
Definition float_of_decimal (d : decimal) : option spec_float :=
  match d with
  | Decimal sign c e => Some (nearest_float sign c e)
  | DInfinity sign => Some (S754_infinity sign)
  | DNaN false => Some S754_nan
  | DNaN true => None
  end.

(** References to objects. *)
Abbreviation loc := positive.

Inductive value :=
  | VNone
  | VBool (b : bool)
  | VInt (z : Z)
  | VStr (s : string)
  | VDecimal (d : decimal)
  | VFloat (f : spec_float)
  | VRef (l : loc).

(** The truth value [if instance:] tests.  An object is true: the mapped
    classes define neither [__bool__] nor [__len__]. *)
Definition truthy (v : value) : bool :=
  match v with
  | VNone => false
  | VBool b => b
  | VInt z => negb (z =? 0)
  | VStr s => negb (String.eqb s "")
  | VDecimal (Decimal _ c _) => negb (c =? 0)%N
  | VDecimal _ => true
  | VFloat (S754_zero _) => false
  | VFloat _ => true
  | VRef _ => true
  end.

(** [sub in s] on strings. *)
Fixpoint contains (sub s : string) : bool :=
  if String.prefix sub s then true
  else match s with
       | EmptyString => false
       | String _ s' => contains sub s'
       end.

(** A [dict] with string keys, in iteration order. *)
Abbreviation pydict := (list (string * value)).

Definition keys (d : pydict) : list string := fst <$> d.

Fixpoint getitem (d : pydict) (k : string) : option value :=
  match d with
  | [] => None
  | (k', v) :: d' => if String.eqb k' k then Some v else getitem d' k
  end.

(** ** Table and mapper metadata *)

Module Column.
(** What the methods read of a [sqlalchemy.Column].  [key] is the name the
    column goes by in Python: the key of the column in [table.columns] and
    the attribute of the mapped instance.  It is [name], the name in the
    database, unless the column declares [key=]. *)
Record t := Build
  { key : string; name : string; nullable : bool; primary_key : bool }.
End Column.

Module Table.
(** A [sqlalchemy.Table]: its columns in the order the table declares
    them, and [key_order], the keys of the columns its primary-key
    constraint lists, in the order it lists them; [key_order] is empty
    when the key is declared by the columns' flags alone. *)
Record t := Build { columns : list Column.t; key_order : list string }.

(** The names of the columns, in declaration order. *)
Definition names (tbl : t) : list string :=
  Column.name <$> columns tbl.

(** [columns.keys()]: the keys of the columns, in declaration order. *)
Definition columns_keys (tbl : t) : list string :=
  Column.key <$> columns tbl.

(** The columns flagged [primary_key]. *)
Definition flagged (tbl : t) : list Column.t :=
  filter (λ c, Column.primary_key c = true) (columns tbl).

(** [primary_key.columns]: the columns flagged [primary_key], in the
    order of the key: first those [key_order] lists, as it lists them,
    then the others in declaration order. *)
Definition primary_key_columns (tbl : t) : list Column.t :=
  (k ← key_order tbl; filter (λ c, Column.key c = k) (flagged tbl))
  ++ filter (λ c, Column.key c ∉ key_order tbl) (flagged tbl).

(** Column names identify columns. *)
Definition unique_names (tbl : t) : Prop := NoDup (names tbl).
End Table.

Module Relationship.
(** A relationship of the mapper [inspect(cls)]; [key] is the attribute
    that holds the related object. *)
Record t := Build { key : string }.
End Relationship.

(** A mapped class: a subclass of [Model] bound to a table.  [__url__] is
    [None] unless the class sets it.  [unsettable] lists the names the
    class binds to a descriptor that has no setter ([__weakref__], a
    property without one): assigning to them raises [AttributeError]. *)
Record class := Class
  { __url__ : option string;
    __table__ : Table.t;
    relationships : list Relationship.t;
    unsettable : gset string }.

(** The names whose assignment checks the type of the value: [__class__]
    takes a class and [__dict__] a dictionary.  No value of the model is
    either, so assigning one raises [TypeError]. *)
Definition type_checked : gset string := {[ "__class__"; "__dict__" ]}.

(** The names that cannot be assigned on an instance of [cls]. *)
Definition read_only (cls : class) : gset string :=
  unsettable cls ∪ type_checked.

(** An instance: its class and the attributes [getattr] finds on it. *)
Record object := Object
  { class_of : class; attrs : gmap string value }.

Abbreviation store := (gmap loc object).

(** The methods of [Model]. *)
Definition method_names : list string :=
  [ "required"; "optional"; "primary_key"; "to_dict"; "links";
    "resource_uri"; "update" ].

(** The names the methods and their callers rely on: those of the
    methods, and the names that start with an underscore ([__url__],
    [__table__], [__class__], [__dict__] and the like, which an instance
    finds on its class, and the state the mapper keeps on the instance
    under [_sa_instance_state]). *)
Definition reserved (k : string) : bool :=
  bool_decide (k ∈ method_names) || String.prefix "_" k.

(** An instance is ordinary when it has no attribute of a reserved name:
    [self.__url__], [self.__table__] and the methods are then those of
    its class. *)
Definition ordinary (o : object) : Prop :=
  ∀ k, reserved k = true → attrs o !! k = None.

(** ** Exceptions and the monad of method bodies *)

(** [SystemError] stands for a reference to no object, which Python rules
    out. *)
Inductive exn :=
  | AttributeError
  | TypeError
  | IndexError
  | KeyError
  | ValueError
  | SystemError.

Inductive result (A : Type) :=
  | Ok (a : A)
  | Raise (e : exn).
Arguments Ok {A} a.
Arguments Raise {A} e.

(** A computation runs in a store and leaves a store, also when it raises:
    assignments made before the exception stay made. *)
Definition M (A : Type) : Type := store → result A * store.

Definition ret {A} (a : A) : M A := λ s, (Ok a, s).

Definition raise {A} (e : exn) : M A := λ s, (Raise e, s).

Definition bind {A B} (m : M A) (f : A → M B) : M B :=
  λ s, match m s with
       | (Ok a, s') => f a s'
       | (Raise e, s') => (Raise e, s')
       end.

Instance M_ret : MRet M := @ret.
Instance M_bind : MBind M := λ A B f m, bind m f.

Definition deref (l : loc) : M object :=
  λ s, match s !! l with
       | Some o => (Ok o, s)
       | None => (Raise SystemError, s)
       end.

(** Store the new state of the object at [l]. *)
Definition put (l : loc) (o : object) : M unit :=
  λ s, (Ok tt, <[l := o]> s).

(** [getattr(self, k)] *)
Definition getattr (self : loc) (k : string) : M value :=
  o ← deref self;
  match attrs o !! k with
  | Some v => ret v
  | None => raise AttributeError
  end.

(** [getattr(self, k, d)] *)
Definition getattr_default (self : loc) (k : string) (d : value) : M value :=
  o ← deref self;
  ret (default d (attrs o !! k)).

(** [setattr(self, k, v)] *)
Definition setattr (self : loc) (k : string) (v : value) : M unit :=
  o ← deref self;
  if bool_decide (k ∈ type_checked) then raise TypeError
  else if bool_decide (k ∈ unsettable (class_of o)) then raise AttributeError
  else put self (Object (class_of o) (<[k := v]> (attrs o))).

(** [self.name(...)] as a caller writes it, [m] being the method: an
    attribute [name] of the instance itself hides the method, and calling
    a value raises [TypeError]. *)
Definition call {A} (self : loc) (name : string) (m : M A) : M A :=
  o ← deref self;
  match attrs o !! name with
  | Some _ => raise TypeError
  | None => m
  end.

(** ** Sample schema and instances *)

Module Sample.

(** [widgets(id PRIMARY KEY, name NOT NULL, price NULL, owner_id NULL)] *)
Definition widgets : Table.t :=
  Table.Build
    [ Column.Build "id" "id" false true;
      Column.Build "name" "name" false false;
      Column.Build "price" "price" true false;
      Column.Build "owner_id" "owner_id" true false ]
    [].

(** [owners(id PRIMARY KEY, name NOT NULL)] *)
Definition owners : Table.t :=
  Table.Build
    [ Column.Build "id" "id" false true;
      Column.Build "name" "name" false false ]
    [].

(** [order_items(order_id, item_id, quantity NOT NULL)], the first two
    columns flagged primary key. *)
Definition order_items : Table.t :=
  Table.Build
    [ Column.Build "order_id" "order_id" false true;
      Column.Build "item_id" "item_id" false true;
      Column.Build "quantity" "quantity" false false ]
    [].

(** The same columns under [PRIMARY KEY (item_id, order_id)]. *)
Definition line_items : Table.t :=
  Table.Build
    [ Column.Build "order_id" "order_id" false true;
      Column.Build "item_id" "item_id" false true;
      Column.Build "quantity" "quantity" false false ]
    [ "item_id"; "order_id" ].

(** [pets(id PRIMARY KEY, owner_id NULL)], the column [owner_id] declared
    with [key="owner"]. *)
Definition pets : Table.t :=
  Table.Build
    [ Column.Build "id" "id" false true;
      Column.Build "owner" "owner_id" true false ]
    [].

(** [notes(body NOT NULL)]: no primary key. *)
Definition notes : Table.t :=
  Table.Build [ Column.Build "body" "body" false false ] [].

(** [tags(id PRIMARY KEY, word NOT NULL)], the column [id] declared with
    [key="ident"]. *)
Definition tags : Table.t :=
  Table.Build
    [ Column.Build "ident" "id" false true;
      Column.Build "word" "word" false false ]
    [].

(** Every object has a [__weakref__] slot that cannot be assigned. *)
Definition unassignable : gset string := {[ "__weakref__" ]}.

(** [Widget] declares a property [label] that has no setter. *)
Definition Widget : class :=
  Class (Some "/widgets") widgets
    [ Relationship.Build "owner"; Relationship.Build "orders_collection" ]
    (unassignable ∪ {[ "label" ]}).

Definition Owner : class :=
  Class (Some "/owners") owners [ Relationship.Build "widgets_collection" ]
    unassignable.

Definition OrderItem : class :=
  Class (Some "/order_items") order_items [] unassignable.

Definition LineItem : class :=
  Class (Some "/line_items") line_items [] unassignable.

Definition Pet : class := Class (Some "/pets") pets [] unassignable.

Definition Note : class := Class (Some "/notes") notes [] unassignable.

Definition Tag : class := Class (Some "/tags") tags [] unassignable.

(** A class that never set [__url__]. *)
Definition Unrouted : class := Class None owners [] unassignable.

(** A class whose relationship to its owner is named [self]. *)
Definition Selfish : class :=
  Class (Some "/pets") owners [ Relationship.Build "self" ] unassignable.

(** [Decimal("3.14")] *)
Definition decimal_3_14 : decimal := Decimal false 314 (-2).

(** The float [3.14]: [0x1.91eb851eb851fp+1], that is
    [7070651414971679 * 2^-51]. *)
Definition float_3_14 : spec_float :=
  S754_finite false 7070651414971679 (-51).

Definition ann : object :=
  Object Owner {[ "id" := VInt 7; "name" := VStr "ann" ]}.

Definition gear : object :=
  Object Widget
    {[ "id" := VInt 42; "name" := VStr "gear";
       "price" := VDecimal decimal_3_14;
       "owner" := VRef 2; "orders_collection" := VNone ]}.

(** A widget nobody owns, loaded without its [owner_id] attribute. *)
Definition stray : object :=
  Object Widget
    {[ "id" := VInt 43; "name" := VStr "cog"; "price" := VNone;
       "owner" := VNone; "orders_collection" := VNone ]}.

Definition line : object :=
  Object OrderItem
    {[ "order_id" := VInt 5; "item_id" := VInt 9; "quantity" := VInt 2 ]}.

Definition rex : object :=
  Object Selfish {[ "id" := VInt 1; "name" := VStr "rex"; "self" := VRef 2 ]}.

Definition ghost : object :=
  Object Unrouted {[ "id" := VInt 3; "name" := VStr "boo" ]}.

(** A line of an order under the key [(item_id, order_id)]. *)
Definition entry : object :=
  Object LineItem
    {[ "order_id" := VInt 5; "item_id" := VInt 9; "quantity" := VInt 2 ]}.

(** A pet: the mapper names the attribute of [owner_id] by its key. *)
Definition tom : object :=
  Object Pet {[ "id" := VInt 1; "owner" := VInt 5 ]}.

Definition memo : object := Object Note {[ "body" := VStr "buy milk" ]}.

(** A tag: the mapper names the attribute of [id] by its key. *)
Definition blue : object :=
  Object Tag {[ "ident" := VInt 3; "word" := VStr "blue" ]}.

(** Widgets priced [Decimal("sNaN")] and [Decimal("NaN")]. *)
Definition dud : object :=
  Object Widget
    {[ "id" := VInt 44; "name" := VStr "dud";
       "price" := VDecimal (DNaN true) ]}.

Definition odd : object :=
  Object Widget
    {[ "id" := VInt 45; "name" := VStr "odd";
       "price" := VDecimal (DNaN false) ]}.

Definition heap : store :=
  {[ 1%positive := gear; 2%positive := ann; 3%positive := stray;
     4%positive := line; 5%positive := rex; 6%positive := ghost;
     7%positive := entry; 8%positive := tom; 9%positive := memo;
     10%positive := dud; 11%positive := odd; 12%positive := blue ]}.

(** Printers for the values whose text is left open. *)
Definition no_text {A} (_ : A) : string := "".

End Sample.

(** ** The class [Model] *)

Module Model.

(** The API version of a resource (not yet used). *)
Definition __version__ : string := "1".

(** The HTTP methods a resource supports (default: all). *)
Definition __methods__ : gset string :=
  {[ "GET"; "POST"; "PUT"; "PATCH"; "DELETE"; "HEAD"; "OPTIONS" ]}.

Section Methods.

Set Default Proof Using "Type".

(** [str] of a decimal, of a float and of an object: the text Python
    prints for them is left open. *)
Variable str_decimal : decimal → string.
Variable str_float : spec_float → string.
Variable str_object : loc → string.

(** [str(v)] *)
Definition str (v : value) : string :=
  match v with
  | VNone => "None"
  | VBool true => "True"
  | VBool false => "False"
  | VInt z => pretty z
  | VStr s => s
  | VDecimal d => str_decimal d
  | VFloat f => str_float f
  | VRef l => str_object l
  end.

(** The loop of [required]: [columns] is the list built so far. *)
Fixpoint required_loop (cols : list Column.t) (columns : list string)
    : list string :=
  match cols with
  | [] => columns
  | column :: cols' =>
      if negb (Column.nullable column) && negb (Column.primary_key column)
      then required_loop cols' (columns ++ [Column.name column])
      else required_loop cols' columns
  end.

(** [Model.required(cls)] *)
Definition required (cls : class) : M (list string) :=
  mret (required_loop (Table.columns (__table__ cls)) []).

(** The loop of [optional]. *)
Fixpoint optional_loop (cols : list Column.t) (columns : list string)
    : list string :=
  match cols with
  | [] => columns
  | column :: cols' =>
      if Column.nullable column
      then optional_loop cols' (columns ++ [Column.name column])
      else optional_loop cols' columns
  end.

(** [Model.optional(cls)] *)
Definition optional (cls : class) : M (list string) :=
  mret (optional_loop (Table.columns (__table__ cls)) []).

(** [Model.primary_key(self)]: element [0] of the list of primary-key
    columns; indexing an empty list raises [IndexError]. *)
Definition primary_key (self : loc) : M string :=
  o ← deref self;
  match Table.primary_key_columns (__table__ (class_of o)) with
  | column :: _ => mret (Column.name column)
  | [] => raise IndexError
  end.

(** The loop of [to_dict] over [columns.keys()].  [float] of a signalling
    NaN raises [ValueError]. *)
Fixpoint to_dict_loop (self : loc) (cols : list string)
    (result_dict : gmap string value) : M (gmap string value) :=
  match cols with
  | [] => mret result_dict
  | column :: cols' =>
      value ← getattr_default self column VNone;
      let result_dict := <[column := value]> result_dict in
      match value with
      | VDecimal d =>
          match float_of_decimal d with
          | Some f =>
              to_dict_loop self cols' (<[column := VFloat f]> result_dict)
          | None => raise ValueError
          end
      | _ => to_dict_loop self cols' result_dict
      end
  end.

(** [Model.to_dict(self)] *)
Definition to_dict (self : loc) : M (gmap string value) :=
  o ← deref self;
  to_dict_loop self (Table.columns_keys (__table__ (class_of o))) ∅.

(** [Model.resource_uri(self)].  The left operand [self.__url__ + '/']
    is evaluated first; adding a string to [None] raises [TypeError]. *)
Definition resource_uri (self : loc) : M string :=
  o ← deref self;
  prefix ← match __url__ (class_of o) with
           | Some url => mret (url +:+ "/")
           | None => raise TypeError
           end;
  pk ← primary_key self;
  v ← getattr self pk;
  mret (prefix +:+ str v).

(** [instance.resource_uri()]: only objects have the method. *)
Definition call_resource_uri (instance : value) : M string :=
  match instance with
  | VRef l => resource_uri l
  | _ => raise AttributeError
  end.

(** The loop of [links] over the relationships of the mapper. *)
Fixpoint links_loop (self : loc) (rels : list Relationship.t)
    (link_dict : gmap string string) : M (gmap string string) :=
  match rels with
  | [] => mret link_dict
  | relationship :: rels' =>
      if negb (contains "collection" (Relationship.key relationship))
      then
        instance ← getattr self (Relationship.key relationship);
        if truthy instance
        then
          uri ← call_resource_uri instance;
          links_loop self rels'
            (<[Relationship.key relationship := uri]> link_dict)
        else links_loop self rels' link_dict
      else links_loop self rels' link_dict
  end.

(** [Model.links(self)] *)
Definition links (self : loc) : M (gmap string string) :=
  uri ← resource_uri self;
  o ← deref self;
  links_loop self (relationships (class_of o)) {["self" := uri]}.

(** The loop of [update] over the keys of [attributes]. *)
Fixpoint update_loop (self : loc) (ks : list string) (attributes : pydict)
    : M unit :=
  match ks with
  | [] => mret tt
  | attribute :: ks' =>
      v ← match getitem attributes attribute with
          | Some v => mret v
          | None => raise KeyError
          end;
      setattr self attribute v;;
      update_loop self ks' attributes
  end.

(** [Model.update(self, attributes)] *)
Definition update (self : loc) (attributes : pydict) : M loc :=
  update_loop self (keys attributes) attributes;;
  mret self.

(** ** What the specification says of each method *)

(** The specification's [required()]: the names of the columns that are
    non-nullable and not part of the primary key, in declaration order. *)
Definition required_spec (tbl : Table.t) : list string :=
  Column.name <$>
    filter (λ c, Column.nullable c = false ∧ Column.primary_key c = false)
      (Table.columns tbl).

(** The specification's [optional()]: the names of the nullable columns,
    in declaration order. *)
Definition optional_spec (tbl : Table.t) : list string :=
  Column.name <$>
    filter (λ c, Column.nullable c = true) (Table.columns tbl).

(** The specification's partition of the columns: [req], [opt] and the
    primary key [pk] cover the column names, and [req] and [opt] share no
    name. *)
Definition columns_partitioned
    (tbl : Table.t) (req opt : list string) (pk : string) : Prop :=
  (list_to_set req ∪ list_to_set opt ∪ {[ pk ]} : gset string)
    = list_to_set (Table.names tbl)
  ∧ (list_to_set req : gset string) ## list_to_set opt.

(** The specification's normalization of a column value: a decimal is
    widened to a float, any other value is kept.  A signalling NaN has no
    float. *)
Definition widened (v : value) : option value :=
  match v with
  | VDecimal d => VFloat <$> float_of_decimal d
  | _ => Some v
  end.

(** The mapping [to_dict] builds from the attributes of [o] over the
    column keys [cols], when every value has its normalization. *)
Fixpoint serialized (o : object) (cols : list string)
    (acc : gmap string value) : option (gmap string value) :=
  match cols with
  | [] => Some acc
  | k :: cols' =>
      match widened (default VNone (attrs o !! k)) with
      | Some v => serialized o cols' (<[k := v]> acc)
      | None => None
      end
  end.

(** No attribute of [o] among [cols] is a signalling NaN. *)
Definition no_signalling_nan (o : object) (cols : list string) : Prop :=
  ∀ k, k ∈ cols → attrs o !! k ≠ Some (VDecimal (DNaN true)).

(** No attribute of [o] among [cols] is a NaN, quiet or signalling. *)
Definition no_nan (o : object) (cols : list string) : Prop :=
  ∀ k b, k ∈ cols → attrs o !! k ≠ Some (VDecimal (DNaN b)).

(** The specification's entries of [links()] beside [self]: [k] is the key
    of a relationship among [rels], does not contain "collection", and the
    attribute [k] of [o] refers to an object whose [resource_uri()] is
    [u]. *)
Definition linked (s : store) (o : object) (rels : list Relationship.t)
    (k u : string) : Prop :=
  ∃ r l,
    r ∈ rels ∧ Relationship.key r = k
    ∧ contains "collection" k = false
    ∧ attrs o !! k = Some (VRef l)
    ∧ resource_uri l s = (Ok u, s).

(** A computation that only reads: whatever it returns or raises, it
    leaves the store it ran in. *)
Definition reads_only {A} (m : M A) : Prop := ∀ s, (m s).2 = s.

(** The keys [update] gets to assign: those before the first one that
    cannot be assigned on an instance of [cls]. *)
Fixpoint assigned (cls : class) (ks : list string) : list string :=
  match ks with
  | [] => []
  | k :: ks' =>
      if bool_decide (k ∈ read_only cls) then [] else k :: assigned cls ks'
  end.

(** The exception the assignment of a name that cannot be assigned
    raises. *)
Definition refusal (k : string) : exn :=
  if bool_decide (k ∈ type_checked) then TypeError else AttributeError.

(** How [update] over the keys [ks] ends. *)
Fixpoint ending (cls : class) (ks : list string) : result unit :=
  match ks with
  | [] => Ok tt
  | k :: ks' =>
      if bool_decide (k ∈ read_only cls) then Raise (refusal k)
      else ending cls ks'
  end.

(** The value [attributes[k]], [None] standing in when there is none. *)
Definition item (attributes : pydict) (k : string) : value :=
  default VNone (getitem attributes k).

(** The attributes [a] after the keys [ks] were bound to their items. *)
Definition assign (attributes : pydict) (ks : list string)
    (a : gmap string value) : gmap string value :=
  foldl (λ a k, <[k := item attributes k]> a) a ks.

(** No key of [attributes] is a reserved name: an [update] by them keeps
    an ordinary instance ordinary. *)
Definition plain_keys (attributes : pydict) : Prop :=
  ∀ k, k ∈ keys attributes → reserved k = false.

(** ** Running computations *)

Ltac run :=
  unfold mbind, M_bind, bind, mret, M_ret, ret, raise, deref; simpl.

(** ** The methods against the specification *)

(** *** Metadata *)

Lemma required_loop_app cols columns :
  required_loop cols columns
  = columns ++ (Column.name <$>
      filter (λ c, Column.nullable c = false ∧ Column.primary_key c = false)
        cols).
Proof.
  revert columns.
  induction cols as [|c cols IH]; intros columns; simpl.
  - by rewrite app_nil_r.
  - rewrite filter_cons.
    destruct (Column.nullable c) eqn:Hn, (Column.primary_key c) eqn:Hp;
      simpl; rewrite IH; try case_decide; try naive_solver;
      simpl; by rewrite <- ?app_assoc.
Qed.

Lemma optional_loop_app cols columns :
  optional_loop cols columns
  = columns ++ (Column.name <$> filter (λ c, Column.nullable c = true) cols).
Proof.
  revert columns.
  induction cols as [|c cols IH]; intros columns; simpl.
  - by rewrite app_nil_r.
  - rewrite filter_cons.
    destruct (Column.nullable c) eqn:Hn; rewrite IH;
      try case_decide; try congruence; simpl; by rewrite <- ?app_assoc.
Qed.

(** C8: [required()] returns, in declaration order, exactly the names of
    the columns that are non-nullable and not part of the primary key;
    [optional()] returns, in declaration order, exactly the names of the
    nullable columns; both leave the store as it was. *)
Theorem required_optional_declaration_order (cls : class) (s : store) :
  required cls s = (Ok (required_spec (__table__ cls)), s)
  ∧ optional cls s = (Ok (optional_spec (__table__ cls)), s).
Proof.
  unfold required, optional, required_spec, optional_spec.
  by rewrite required_loop_app, optional_loop_app.
Qed.

Lemma getattr_run (s : store) (self : loc) (o : object) (k : string) :
  s !! self = Some o →
  getattr self k s
  = match attrs o !! k with
    | Some v => (Ok v, s)
    | None => (Raise AttributeError, s)
    end.
Proof.
  intros Hs. unfold getattr. run. rewrite Hs. by destruct (attrs o !! k).
Qed.

(** Every flagged column is a primary-key column, and no other is. *)
Lemma primary_key_columns_spec (tbl : Table.t) (c : Column.t) :
  c ∈ Table.primary_key_columns tbl
  ↔ Column.primary_key c = true ∧ c ∈ Table.columns tbl.
Proof.
  unfold Table.primary_key_columns, Table.flagged.
  rewrite elem_of_app, list_elem_of_bind. split.
  - intros [(k & Hc & _)|Hc].
    + apply list_elem_of_filter in Hc as [_ Hc].
      by apply list_elem_of_filter in Hc.
    + apply list_elem_of_filter in Hc as [_ Hc].
      by apply list_elem_of_filter in Hc.
  - intros [Hp Hc].
    assert (c ∈ filter (λ c, Column.primary_key c = true) (Table.columns tbl))
      as Hflagged by (by apply list_elem_of_filter).
    destruct (decide (Column.key c ∈ Table.key_order tbl)) as [Hin|Hnotin].
    + left. exists (Column.key c). split; [|done].
      by apply list_elem_of_filter.
    + right. by apply list_elem_of_filter.
Qed.

Lemma filter_all {A} (P : A → Prop) `{∀ x, Decision (P x)} (l : list A) :
  (∀ x, x ∈ l → P x) → filter P l = l.
Proof.
  induction l as [|x l IH]; intros Hl; [done|].
  rewrite filter_cons, decide_True by (apply Hl, elem_of_cons; by left).
  f_equal. apply IH. intros y Hy. apply Hl, elem_of_cons. by right.
Qed.

(** A key declared by the flags alone is in declaration order. *)
Lemma primary_key_columns_flags (tbl : Table.t) :
  Table.key_order tbl = [] →
  Table.primary_key_columns tbl = Table.flagged tbl.
Proof.
  intros Hkey. unfold Table.primary_key_columns. rewrite Hkey. simpl.
  apply filter_all. intros c _. apply not_elem_of_nil.
Qed.

Lemma flagged_first (before : list Column.t) (c : Column.t)
    (after : list Column.t) (key_order : list string) :
  Forall (λ c', Column.primary_key c' = false) before →
  Column.primary_key c = true →
  ∃ rest,
    Table.flagged (Table.Build (before ++ c :: after) key_order) = c :: rest.
Proof.
  intros Hbefore Hc. unfold Table.flagged. simpl.
  induction Hbefore as [|c' before Hc' _ IH]; simpl.
  - rewrite filter_cons, decide_True by done. eauto.
  - rewrite filter_cons, decide_False by congruence. done.
Qed.

Lemma key_identifies (cols : list Column.t) (c1 c2 : Column.t) :
  NoDup (Column.key <$> cols) →
  c1 ∈ cols → c2 ∈ cols → Column.key c1 = Column.key c2 → c1 = c2.
Proof.
  induction cols as [|c cols IH]; intros Hnd H1 H2 Heq.
  - by apply elem_of_nil in H1.
  - rewrite fmap_cons in Hnd. apply NoDup_cons in Hnd as [Hnotin Hnd].
    apply elem_of_cons in H1 as [->|H1]; apply elem_of_cons in H2 as [->|H2].
    + done.
    + exfalso. apply Hnotin. rewrite Heq. by apply list_elem_of_fmap_2.
    + exfalso. apply Hnotin. rewrite <- Heq. by apply list_elem_of_fmap_2.
    + by apply IH.
Qed.

(** The key lists [k] first: its first column is the flagged column keyed
    [k]. *)
Lemma primary_key_columns_listed (tbl : Table.t) (k : string)
    (rest : list string) (c : Column.t) :
  Table.key_order tbl = k :: rest →
  NoDup (Table.columns_keys tbl) →
  c ∈ Table.columns tbl → Column.primary_key c = true → Column.key c = k →
  ∃ others, Table.primary_key_columns tbl = c :: others.
Proof.
  intros Hkey Hnd Hc Hp Hk.
  unfold Table.primary_key_columns. rewrite Hkey. simpl.
  assert (c ∈ filter (λ c, Column.key c = k) (Table.flagged tbl)) as Hin.
  { apply list_elem_of_filter. split; [done|].
    by apply list_elem_of_filter. }
  destruct (filter (λ c, Column.key c = k) (Table.flagged tbl))
    as [|c' others] eqn:Hfilter; [by apply elem_of_nil in Hin|].
  assert (c' ∈ filter (λ c, Column.key c = k) (Table.flagged tbl))
    as [Hk' [_ Hc']%list_elem_of_filter]%list_elem_of_filter
    by (rewrite Hfilter; apply elem_of_cons; by left).
  assert (c' = c) as ->.
  { apply (key_identifies (Table.columns tbl)); [done|done|done|].
    by rewrite Hk', Hk. }
  simpl. eauto.
Qed.

Lemma primary_key_run (s : store) (self : loc) (o : object) :
  s !! self = Some o →
  primary_key self s
  = (match Table.primary_key_columns (__table__ (class_of o)) with
     | [] => Raise IndexError
     | column :: _ => Ok (Column.name column)
     end, s).
Proof.
  intros Hs. unfold primary_key. run. rewrite Hs.
  by destruct (Table.primary_key_columns (__table__ (class_of o))).
Qed.

(** C7, amended: when the table has a primary-key column, [primary_key()]
    of an ordinary instance returns the name of the first column of the
    key in the key's own order, and of that column only: the column the
    key constraint lists first, or, when the key is declared by the
    columns' flags alone, the first flagged column in declaration
    order. *)
Theorem primary_key_first_of_key
    (s : store) (self : loc) (o : object) :
  s !! self = Some o →
  ordinary o →
  (∀ before c after,
     Table.key_order (__table__ (class_of o)) = [] →
     Table.columns (__table__ (class_of o)) = before ++ c :: after →
     Forall (λ c', Column.primary_key c' = false) before →
     Column.primary_key c = true →
     primary_key self s = (Ok (Column.name c), s))
  ∧ (∀ k rest c,
       Table.key_order (__table__ (class_of o)) = k :: rest →
       NoDup (Table.columns_keys (__table__ (class_of o))) →
       c ∈ Table.columns (__table__ (class_of o)) →
       Column.primary_key c = true → Column.key c = k →
       primary_key self s = (Ok (Column.name c), s)).
Proof.
  intros Hs _. rewrite (primary_key_run s self o Hs). split.
  - intros before c after Hkey Hcols Hbefore Hc.
    rewrite (primary_key_columns_flags _ Hkey).
    destruct (__table__ (class_of o)) as [cols order].
    simpl in Hcols. subst cols.
    by destruct (flagged_first before c after order Hbefore Hc) as [rest ->].
  - intros k rest c Hkey Hnd Hc Hp Hk.
    by destruct (primary_key_columns_listed _ k rest c Hkey Hnd Hc Hp Hk)
      as [others ->].
Qed.

Lemma name_identifies (cols : list Column.t) (c1 c2 : Column.t) :
  NoDup (Column.name <$> cols) →
  c1 ∈ cols → c2 ∈ cols → Column.name c1 = Column.name c2 → c1 = c2.
Proof.
  induction cols as [|c cols IH]; intros Hnd H1 H2 Heq.
  - by apply elem_of_nil in H1.
  - rewrite fmap_cons in Hnd. apply NoDup_cons in Hnd as [Hnotin Hnd].
    apply elem_of_cons in H1 as [->|H1]; apply elem_of_cons in H2 as [->|H2].
    + done.
    + exfalso. apply Hnotin. rewrite Heq. by apply list_elem_of_fmap_2.
    + exfalso. apply Hnotin. rewrite <- Heq. by apply list_elem_of_fmap_2.
    + by apply IH.
Qed.

(** Whatever the primary key, the required names, the optional names and
    the names of all primary-key columns cover the columns. *)
Lemma columns_covered (tbl : Table.t) (x : string) :
  x ∈ Table.names tbl ↔
    x ∈ required_spec tbl ∨ x ∈ optional_spec tbl
    ∨ x ∈ (Column.name <$> Table.primary_key_columns tbl).
Proof.
  unfold Table.names, required_spec, optional_spec.
  rewrite !list_elem_of_fmap. split.
  - intros (c & -> & Hc).
    destruct (Column.nullable c) eqn:Hn; [|destruct (Column.primary_key c) eqn:Hp].
    + right; left. exists c. split; [done|]. by apply list_elem_of_filter.
    + right; right. exists c. split; [done|].
      by apply primary_key_columns_spec.
    + left. exists c. split; [done|]. by apply list_elem_of_filter.
  - intros [(c & -> & Hc)|[(c & -> & Hc)|(c & -> & Hc)]].
    + apply list_elem_of_filter in Hc as [_ Hc]; eauto.
    + apply list_elem_of_filter in Hc as [_ Hc]; eauto.
    + apply primary_key_columns_spec in Hc as [_ Hc]; eauto.
Qed.

(** C1, amended: for a table whose primary key is a single column,
    [required()], [optional()] and the column [primary_key()] names cover
    the column names, and no name is both required and optional. *)
Theorem columns_partitioned_single_key
    (s : store) (self : loc) (o : object) :
  s !! self = Some o →
  Table.unique_names (__table__ (class_of o)) →
  length (Table.primary_key_columns (__table__ (class_of o))) = 1%nat →
  ∃ req opt pk,
    required (class_of o) s = (Ok req, s)
    ∧ optional (class_of o) s = (Ok opt, s)
    ∧ primary_key self s = (Ok pk, s)
    ∧ columns_partitioned (__table__ (class_of o)) req opt pk.
Proof.
  intros Hs Hnd Hone.
  assert (required (class_of o) s
          = (Ok (required_spec (__table__ (class_of o))), s)) as Hreq
    by (unfold required, required_spec; by rewrite required_loop_app).
  assert (optional (class_of o) s
          = (Ok (optional_spec (__table__ (class_of o))), s)) as Hopt
    by (unfold optional, optional_spec; by rewrite optional_loop_app).
  set (tbl := __table__ (class_of o)) in Hnd, Hone, Hreq, Hopt |- *.
  destruct (Table.primary_key_columns tbl) as [|c [|? ?]] eqn:Hpk;
    simpl in Hone; try discriminate.
  exists (required_spec tbl), (optional_spec tbl), (Column.name c).
  split; [done|]. split; [done|]. split.
  { unfold primary_key. run. rewrite Hs. fold tbl. by rewrite Hpk. }
  split.
  - apply set_eq. intros x.
    rewrite !elem_of_union, !elem_of_list_to_set, elem_of_singleton.
    rewrite columns_covered, Hpk. simpl.
    rewrite list_elem_of_singleton. by rewrite (assoc (∨)).
  - apply elem_of_disjoint. intros x.
    rewrite !elem_of_list_to_set. unfold required_spec, optional_spec.
    rewrite !list_elem_of_fmap.
    intros (c1 & -> & H1) (c2 & Heq & H2).
    apply list_elem_of_filter in H1 as [[Hn1 _] H1].
    apply list_elem_of_filter in H2 as [Hn2 H2].
    assert (c1 = c2) by (by apply (name_identifies (Table.columns tbl))).
    congruence.
Qed.

(** *** Serialization *)

(** Shifting and rounding keep a mantissa that is not negative so. *)
Lemma shr_1_nonneg (mrs : shr_record) :
  0 ≤ shr_m mrs → 0 ≤ shr_m (shr_1 mrs).
Proof.
  destruct mrs as [m r t]. simpl.
  destruct m as [|[p|p|]|[p|p|]]; simpl; lia.
Qed.

Lemma iter_pos_shr_1_nonneg (p : positive) (mrs : shr_record) :
  0 ≤ shr_m mrs → 0 ≤ shr_m (SpecFloat.iter_pos shr_1 p mrs).
Proof.
  revert mrs. induction p as [p IH|p IH|]; intros mrs Hm; simpl.
  - by apply IH, IH, shr_1_nonneg.
  - by apply IH, IH.
  - by apply shr_1_nonneg.
Qed.

Lemma shr_fexp_nonneg (m e : Z) (l : location) :
  0 ≤ m → 0 ≤ shr_m (shr_fexp prec emax m e l).1.
Proof.
  intros Hm. unfold shr_fexp, shr.
  assert (0 ≤ shr_m (shr_record_of_loc m l)) as Hrec
    by (by destruct l as [|[]]).
  destruct (fexp prec emax (Zdigits2 m + e) - e) as [|p|p]; simpl;
    [done| |done].
  by apply iter_pos_shr_1_nonneg.
Qed.

Lemma round_nearest_even_nonneg (m : Z) (l : location) :
  0 ≤ m → 0 ≤ round_nearest_even m l.
Proof.
  intros Hm. destruct l as [|[]]; simpl; [done| |done|lia].
  destruct (Z.even m); lia.
Qed.

Lemma binary_round_aux_not_nan (sign : bool) (m e : Z) (l : location) :
  0 ≤ m → binary_round_aux prec emax sign m e l ≠ S754_nan.
Proof.
  intros Hm. unfold binary_round_aux.
  pose proof (shr_fexp_nonneg m e l Hm) as H1.
  destruct (shr_fexp prec emax m e l) as [mrs' e'].
  simpl in H1.
  pose proof (shr_fexp_nonneg
    (round_nearest_even (shr_m mrs') (loc_of_shr_record mrs')) e' loc_Exact
    (round_nearest_even_nonneg _ _ H1)) as H2.
  destruct (shr_fexp prec emax _ e' loc_Exact) as [mrs'' e''].
  simpl in H2.
  destruct (shr_m mrs'') as [|p|p]; [done| |lia].
  by destruct (e'' <=? emax - prec).
Qed.

(** The float nearest to a decimal number is a number: a zero, a finite
    float or an infinity. *)
Lemma nearest_float_not_nan (sign : bool) (c : N) (e : Z) :
  nearest_float sign c e ≠ S754_nan.
Proof.
  unfold nearest_float. destruct c as [|c]; [done|].
  destruct (0 <=? e).
  - unfold binary_round.
    destruct (shl_align _ _ _) as [mz ez].
    by apply binary_round_aux_not_nan.
  - destruct (SFdiv_core_binary prec emax (Z.pos c) 0 (10 ^ (- e)) 0)
      as [[q e'] l] eqn:Hdiv.
    apply binary_round_aux_not_nan.
    unfold SFdiv_core_binary in Hdiv.
    set (m' := match _ - _ with 0 => _ | Z.pos _ => _ | Z.neg _ => _ end)
      in Hdiv.
    assert (0 ≤ m') as Hm'.
    { subst m'. destruct (_ - _) as [|p|p]; [done| |done].
      apply Z.shiftl_nonneg. done. }
    pose proof (Z.div_eucl_eq m' (10 ^ (- e))) as Heq.
    assert (0 ≤ m' / 10 ^ (- e)) as Hq.
    { destruct (Z.eq_dec (10 ^ (- e)) 0) as [->|Hne].
      - by rewrite Z.div_0_r.
      - apply Z.div_pos; [done|].
        assert (0 ≤ 10 ^ (- e)) by (apply Z.pow_nonneg; lia). lia. }
    unfold Z.div in Hq.
    destruct (Z.div_eucl m' (10 ^ (- e))) as [q' r].
    by inversion Hdiv; subst.
Qed.

(** A float made from a decimal that is no NaN equals itself. *)
Lemma float_of_decimal_eqb (d : decimal) (f : spec_float) :
  (∀ b, d ≠ DNaN b) → float_of_decimal d = Some f → SFeqb f f = true.
Proof.
  intros Hd Hf.
  assert (f ≠ S754_nan) as Hnan.
  { destruct d as [sign c e|sign|b]; simpl in Hf.
    - inversion Hf. apply nearest_float_not_nan.
    - by inversion Hf.
    - by destruct (Hd b). }
  unfold SFeqb. destruct f as [[]|[]| |[] m e]; try done; simpl.
  - by rewrite Z.compare_refl, Pos.compare_cont_spec, Pos.compare_refl.
  - by rewrite Z.compare_refl, Pos.compare_cont_spec, Pos.compare_refl.
Qed.

Lemma widened_None (v : value) :
  widened v = None ↔ v = VDecimal (DNaN true).
Proof.
  destruct v as [| | | |[sign c e|sign|[]]| |]; simpl; split; try done.
Qed.

Lemma default_signalling (a : gmap string value) (k : string) :
  default VNone (a !! k) = VDecimal (DNaN true) →
  a !! k = Some (VDecimal (DNaN true)).
Proof. destruct (a !! k) as [v|]; simpl; [by intros ->|done]. Qed.

Lemma widened_no_decimal (v : value) (d : decimal) :
  widened v ≠ Some (VDecimal d).
Proof.
  destruct v as [| | | |d'| |]; simpl; try done.
  by destruct (float_of_decimal d').
Qed.

Lemma serialized_lookup (o : object) (cols : list string)
    (acc m : gmap string value) (k : string) :
  serialized o cols acc = Some m →
  m !! k = if decide (k ∈ cols)
           then widened (default VNone (attrs o !! k))
           else acc !! k.
Proof.
  revert acc. induction cols as [|k0 cols IH]; intros acc; cbn [serialized].
  - intros [= <-]. case_decide as Hin; [by apply elem_of_nil in Hin|done].
  - destruct (widened (default VNone (attrs o !! k0))) as [v|] eqn:Hv;
      [|done].
    intros Hm. rewrite (IH _ Hm).
    destruct (decide (k ∈ cols)) as [Hin|Hnotin],
      (decide (k ∈ k0 :: cols)) as [Hin'|Hnotin']; try done.
    + exfalso. apply Hnotin'. apply elem_of_cons. by right.
    + apply elem_of_cons in Hin' as [->|?]; [|done].
      by rewrite lookup_insert_eq.
    + rewrite lookup_insert_ne; [done|].
      intros ->. apply Hnotin'. apply elem_of_cons. by left.
Qed.

Lemma serialized_bound (o : object) (cols : list string)
    (acc m : gmap string value) (k : string) :
  serialized o cols acc = Some m →
  k ∈ cols ∨ is_Some (acc !! k) → is_Some (m !! k).
Proof.
  revert acc. induction cols as [|k0 cols IH]; intros acc; simpl.
  - intros [= <-] [Hin|Hacc]; [by apply elem_of_nil in Hin|done].
  - destruct (widened (default VNone (attrs o !! k0))) as [v|]; [|done].
    intros Hm Hk. apply (IH _ Hm).
    destruct (decide (k = k0)) as [->|Hne].
    + right. by rewrite lookup_insert_eq.
    + rewrite lookup_insert_ne by done.
      destruct Hk as [[->|Hin]%elem_of_cons|Hacc]; [done|by left|by right].
Qed.

Lemma serialized_is_Some (o : object) (cols : list string)
    (acc : gmap string value) :
  no_signalling_nan o cols → is_Some (serialized o cols acc).
Proof.
  revert acc. induction cols as [|k cols IH]; intros acc Hcols; simpl.
  - by eexists.
  - destruct (widened (default VNone (attrs o !! k))) as [v|] eqn:Hv.
    + apply IH. intros k' Hk'. apply Hcols, elem_of_cons. by right.
    + exfalso. apply widened_None in Hv.
      apply (Hcols k); [apply elem_of_cons; by left|].
      by apply default_signalling.
Qed.

Lemma serialized_None (o : object) (cols : list string)
    (acc : gmap string value) (k : string) :
  k ∈ cols → attrs o !! k = Some (VDecimal (DNaN true)) →
  serialized o cols acc = None.
Proof.
  revert acc. induction cols as [|k0 cols IH]; intros acc Hin Hk; simpl.
  - by apply elem_of_nil in Hin.
  - destruct (widened (default VNone (attrs o !! k0))) as [v|] eqn:Hv;
      [|done].
    apply elem_of_cons in Hin as [->|Hin]; [|by apply IH].
    by rewrite Hk in Hv.
Qed.

Lemma to_dict_loop_run (s : store) (self : loc) (o : object)
    (cols : list string) (acc : gmap string value) :
  s !! self = Some o →
  to_dict_loop self cols acc s
  = (match serialized o cols acc with
     | Some m => Ok m
     | None => Raise ValueError
     end, s).
Proof.
  intros Hs. revert acc.
  induction cols as [|column cols IH]; intros acc; simpl; [done|].
  unfold getattr_default. run. rewrite Hs. simpl.
  destruct (default VNone (attrs o !! column)) as [| | | |d| |] eqn:Hv;
    simpl; try (by rewrite IH).
  destruct (float_of_decimal d) as [f|]; simpl; [|done].
  by rewrite IH, insert_insert_eq.
Qed.

Lemma to_dict_run (s : store) (self : loc) (o : object) :
  s !! self = Some o →
  to_dict self s
  = (match serialized o (Table.columns_keys (__table__ (class_of o))) ∅ with
     | Some m => Ok m
     | None => Raise ValueError
     end, s).
Proof.
  intros Hs. unfold to_dict. run. rewrite Hs.
  by apply to_dict_loop_run.
Qed.

(** C6, amended: for an ordinary instance none of whose column values is
    a signalling NaN, [to_dict()] returns a mapping whose keys are exactly
    the keys of the table's columns (their names, unless a column
    declares a key of its own), each bound to the instance's current
    value for the column, a decimal value being replaced by the float
    nearest to it; a column holding [Decimal("3.14")] is bound to the
    float [3.14]. *)
Theorem to_dict_columns (s : store) (self : loc) (o : object) :
  s !! self = Some o →
  ordinary o →
  no_signalling_nan o (Table.columns_keys (__table__ (class_of o))) →
  ∃ m : gmap string value,
    to_dict self s = (Ok m, s)
    ∧ dom m = list_to_set (Table.columns_keys (__table__ (class_of o)))
    ∧ (∀ k d, k ∈ Table.columns_keys (__table__ (class_of o)) →
         attrs o !! k = Some (VDecimal d) →
         ∃ f, float_of_decimal d = Some f ∧ m !! k = Some (VFloat f))
    ∧ (∀ k v, k ∈ Table.columns_keys (__table__ (class_of o)) →
         attrs o !! k = Some v → (∀ d, v ≠ VDecimal d) →
         m !! k = Some v)
    ∧ (∀ k, k ∈ Table.columns_keys (__table__ (class_of o)) →
         attrs o !! k = Some (VDecimal Sample.decimal_3_14) →
         m !! k = Some (VFloat Sample.float_3_14)).
Proof.
  intros Hs _ Hnan. rewrite (to_dict_run s self o Hs).
  destruct (serialized_is_Some o _ ∅ Hnan) as [m Hm]. rewrite Hm.
  exists m. split; [done|]. split; [|split; [|split]].
  - apply set_eq. intros k.
    rewrite elem_of_dom, elem_of_list_to_set, (serialized_lookup _ _ _ _ k Hm).
    case_decide as Hk.
    + split; [done|]. intros _.
      destruct (widened (default VNone (attrs o !! k))) as [v|] eqn:Hv;
        [by eexists|].
      apply widened_None in Hv. exfalso. apply (Hnan k Hk).
      by apply default_signalling.
    + rewrite lookup_empty. split; [by intros []|done].
  - intros k d Hk Hv.
    rewrite (serialized_lookup _ _ _ _ k Hm), decide_True by done.
    rewrite Hv. simpl.
    destruct (float_of_decimal d) as [f|] eqn:Hf; [by exists f|].
    exfalso. apply (Hnan k Hk). rewrite Hv.
    by destruct d as [| |[]].
  - intros k v Hk Hv Hd.
    rewrite (serialized_lookup _ _ _ _ k Hm), decide_True by done.
    rewrite Hv. simpl. destruct v; try done. by destruct (Hd d).
  - intros k Hk Hv.
    rewrite (serialized_lookup _ _ _ _ k Hm), decide_True by done.
    by rewrite Hv.
Qed.

(** C9, amended: for an ordinary instance none of whose column values is
    a NaN, two calls of [to_dict()] in a row, nothing assigned in
    between, return the same mapping (and leave the store as it was),
    and every float the calls make of a decimal is equal to itself. *)
Theorem to_dict_idempotent (s : store) (self : loc) (o : object) :
  s !! self = Some o →
  ordinary o →
  no_nan o (Table.columns_keys (__table__ (class_of o))) →
  ∃ m : gmap string value,
    (first ← to_dict self; second ← to_dict self; mret (first, second)) s
    = (Ok (m, m), s)
    ∧ (∀ k d, k ∈ Table.columns_keys (__table__ (class_of o)) →
         attrs o !! k = Some (VDecimal d) →
         ∃ f, m !! k = Some (VFloat f) ∧ SFeqb f f = true).
Proof.
  intros Hs _ Hnan.
  assert (no_signalling_nan o (Table.columns_keys (__table__ (class_of o))))
    as Hsnan by (intros k Hk; apply Hnan, Hk).
  destruct (serialized_is_Some o _ ∅ Hsnan) as [m Hm].
  exists m. split.
  - run. rewrite (to_dict_run s self o Hs), Hm.
    by rewrite (to_dict_run s self o Hs), Hm.
  - intros k d Hk Hv.
    rewrite (serialized_lookup _ _ _ _ k Hm), decide_True by done.
    rewrite Hv. simpl.
    destruct (float_of_decimal d) as [f|] eqn:Hf.
    + exists f. split; [done|].
      apply (float_of_decimal_eqb d f); [|done].
      intros b ->. by apply (Hnan k b Hk).
    + exfalso. apply (Hnan k true Hk). rewrite Hv.
      by destruct d as [| |[]].
Qed.

(** C10, amended: a column with no attribute of its key on an ordinary
    instance, the key being no reserved name, does not make [to_dict()]
    fail: [to_dict()] raises no [AttributeError], whenever it returns the
    mapping binds the key of the column to [None], and it returns when no
    column value is a signalling NaN. *)
Theorem to_dict_missing_attribute
    (s : store) (self : loc) (o : object) (k : string) :
  s !! self = Some o →
  ordinary o →
  k ∈ Table.columns_keys (__table__ (class_of o)) →
  reserved k = false →
  attrs o !! k = None →
  to_dict self s ≠ (Raise AttributeError, s)
  ∧ (∀ m s', to_dict self s = (Ok m, s') → m !! k = Some VNone)
  ∧ (no_signalling_nan o (Table.columns_keys (__table__ (class_of o))) →
     ∃ m, to_dict self s = (Ok m, s)).
Proof.
  intros Hs _ Hk _ Hnone. rewrite (to_dict_run s self o Hs).
  split; [|split].
  - by destruct (serialized o _ ∅).
  - intros m s'.
    destruct (serialized o _ ∅) as [m'|] eqn:Hm; [|done].
    intros [= <- <-].
    rewrite (serialized_lookup _ _ _ _ k Hm), decide_True by done.
    by rewrite Hnone.
  - intros Hnan. destruct (serialized_is_Some o _ ∅ Hnan) as [m ->].
    by exists m.
Qed.

(** *** Links *)

(** C5, amended: on a class that set [__url__], when [primary_key()]
    returns and the ordinary instance has the attribute it names,
    [resource_uri()] returns the url, then "/", then [str] of the value
    of that attribute: the decimal digits of an integer, a string as it
    is, [None], [True] and [False] by their names; with url "/widgets"
    and primary key value 42 this is "/widgets/42". *)
Theorem resource_uri_concat
    (s : store) (self : loc) (o : object) (url pk : string) (v : value) :
  s !! self = Some o →
  ordinary o →
  __url__ (class_of o) = Some url →
  primary_key self s = (Ok pk, s) →
  attrs o !! pk = Some v →
  resource_uri self s = (Ok ((url +:+ "/") +:+ str v), s)
  ∧ (∀ z, v = VInt z →
       resource_uri self s = (Ok ((url +:+ "/") +:+ pretty z), s))
  ∧ (∀ t, v = VStr t → resource_uri self s = (Ok ((url +:+ "/") +:+ t), s))
  ∧ (v = VNone → resource_uri self s = (Ok ((url +:+ "/") +:+ "None"), s))
  ∧ (v = VBool true →
       resource_uri self s = (Ok ((url +:+ "/") +:+ "True"), s))
  ∧ (v = VBool false →
       resource_uri self s = (Ok ((url +:+ "/") +:+ "False"), s))
  ∧ (url = "/widgets" → v = VInt 42 →
     resource_uri self s = (Ok "/widgets/42", s)).
Proof.
  intros Hs _ Hurl Hpk Hv.
  assert (resource_uri self s = (Ok ((url +:+ "/") +:+ str v), s)) as Huri.
  { unfold resource_uri. run. rewrite Hs, Hurl. simpl. rewrite Hpk.
    by rewrite (getattr_run s self o pk Hs), Hv. }
  rewrite Huri. repeat split; try by intros; subst.
Qed.

Lemma linked_cons_skip (s : store) (o : object) (r : Relationship.t)
    (rels : list Relationship.t) (k u : string) :
  (∀ l, contains "collection" (Relationship.key r) = false →
        attrs o !! Relationship.key r ≠ Some (VRef l)) →
  linked s o (r :: rels) k u ↔ linked s o rels k u.
Proof.
  intros Hskip. unfold linked. split.
  - intros (r' & l & Hin & Hkey & Hcoll & Hattr & Huri).
    apply elem_of_cons in Hin as [->|Hin].
    + exfalso. subst k. by apply (Hskip l).
    + by exists r', l.
  - intros (r' & l & Hin & Hrest). exists r', l.
    split; [|done]. apply elem_of_cons. by right.
Qed.

Lemma linked_functional (s : store) (o : object)
    (rels : list Relationship.t) (k u u' : string) :
  linked s o rels k u → linked s o rels k u' → u = u'.
Proof.
  intros (r & l & _ & _ & _ & Hattr & Huri)
         (r' & l' & _ & _ & _ & Hattr' & Huri').
  congruence.
Qed.

Lemma links_loop_run (s : store) (self : loc) (o : object)
    (rels : list Relationship.t) (acc : gmap string string) :
  s !! self = Some o →
  (∀ r, r ∈ rels →
     contains "collection" (Relationship.key r) = false →
     attrs o !! Relationship.key r = Some VNone
     ∨ ∃ l u, attrs o !! Relationship.key r = Some (VRef l)
              ∧ resource_uri l s = (Ok u, s)) →
  ∃ m : gmap string string,
    links_loop self rels acc s = (Ok m, s)
    ∧ ∀ k, (∃ u, linked s o rels k u ∧ m !! k = Some u)
           ∨ ((∀ u, ¬ linked s o rels k u) ∧ m !! k = acc !! k).
Proof.
  intros Hs. revert acc.
  induction rels as [|r rels IH]; intros acc Hrels; simpl.
  { exists acc. split; [done|]. intros k. right. split; [|done].
    intros u (r & l & Hin & _). by apply elem_of_nil in Hin. }
  assert (∀ r', r' ∈ rels →
     contains "collection" (Relationship.key r') = false →
     attrs o !! Relationship.key r' = Some VNone
     ∨ ∃ l u, attrs o !! Relationship.key r' = Some (VRef l)
              ∧ resource_uri l s = (Ok u, s)) as Hrels'.
  { intros r' Hin. apply Hrels, elem_of_cons. by right. }
  destruct (contains "collection" (Relationship.key r)) eqn:Hcoll; simpl.
  - destruct (IH acc Hrels') as (m & Hrun & Hm).
    exists m. split; [done|]. intros k.
    destruct (Hm k) as [(u & Hl & Hk)|[Hl Hk]]; [left|right].
    + exists u. split; [|done]. apply linked_cons_skip; [|done].
      intros l ?. congruence.
    + split; [|done]. intros u Hu. apply (Hl u).
      apply linked_cons_skip in Hu; [done|]. intros l ?. congruence.
  - destruct (Hrels r) as [Hnone|(l & u & Href & Huri)];
      [apply elem_of_cons; by left|done| |].
    + run. rewrite (getattr_run s self o _ Hs), Hnone. simpl.
      destruct (IH acc Hrels') as (m & Hrun & Hm).
      exists m. split; [done|]. intros k.
      destruct (Hm k) as [(u & Hl & Hk)|[Hl Hk]]; [left|right].
      * exists u. split; [|done]. apply linked_cons_skip; [|done].
        intros l _. congruence.
      * split; [|done]. intros u Hu. apply (Hl u).
        apply linked_cons_skip in Hu; [done|]. intros l _. congruence.
    + run. rewrite (getattr_run s self o _ Hs), Href. simpl. rewrite Huri.
      destruct (IH (<[Relationship.key r := u]> acc) Hrels')
        as (m & Hrun & Hm).
      exists m. split; [done|]. intros k.
      assert (linked s o (r :: rels) (Relationship.key r) u) as Hhere.
      { exists r, l. split; [apply elem_of_cons; by left|done]. }
      destruct (Hm k) as [(u' & Hl & Hk)|[Hl Hk]].
      * left. exists u'. split; [|done].
        destruct Hl as (r' & l' & Hin & Hrest). exists r', l'.
        split; [|done]. apply elem_of_cons. by right.
      * destruct (decide (k = Relationship.key r)) as [->|Hne].
        -- left. exists u. split; [done|].
           by rewrite Hk, lookup_insert_eq.
        -- right. split.
           ++ intros u' (r' & l' & Hin & Hkey & Hrest).
              apply elem_of_cons in Hin as [->|Hin]; [congruence|].
              apply (Hl u'). by exists r', l'.
           ++ by rewrite Hk, lookup_insert_ne.
Qed.

(** C2, amended: when [resource_uri()] of the instance returns, every
    relationship whose key does not contain "collection" holds [None] or
    an object whose [resource_uri()] returns, and no such relationship
    holding an object is keyed "self", [links()] returns a mapping that
    binds "self" to the instance's [resource_uri()] and, beside it, has
    exactly one entry per relationship whose key does not contain
    "collection" and whose value is not [None], bound to the related
    object's [resource_uri()]. *)
Theorem links_of_instance
    (s : store) (self : loc) (o : object) (uri : string) :
  s !! self = Some o →
  resource_uri self s = (Ok uri, s) →
  (∀ r, r ∈ relationships (class_of o) →
     contains "collection" (Relationship.key r) = false →
     attrs o !! Relationship.key r = Some VNone
     ∨ ∃ l u, attrs o !! Relationship.key r = Some (VRef l)
              ∧ resource_uri l s = (Ok u, s)
              ∧ Relationship.key r ≠ "self") →
  ∃ m : gmap string string,
    links self s = (Ok m, s)
    ∧ m !! "self" = Some uri
    ∧ ∀ k u, k ≠ "self" →
        (m !! k = Some u ↔ linked s o (relationships (class_of o)) k u).
Proof.
  intros Hs Huri Hrels.
  destruct (links_loop_run s self o (relationships (class_of o))
              {[ "self" := uri ]} Hs) as (m & Hrun & Hm).
  { intros r Hin Hcoll.
    destruct (Hrels r Hin Hcoll) as [?|(l & u & ? & ? & _)]; eauto. }
  exists m. split; [|split].
  - unfold links. run. by rewrite Huri, Hs.
  - destruct (Hm "self") as [(u & Hl & _)|[_ Hk]].
    + exfalso. destruct Hl as (r & l & Hin & Hkey & Hcoll & Hattr & _).
      rewrite <- Hkey in Hcoll, Hattr.
      destruct (Hrels r Hin Hcoll) as [?|(? & ? & _ & _ & Hne)]; congruence.
    + by rewrite Hk, lookup_singleton_eq.
  - intros k u Hk. destruct (Hm k) as [(u' & Hl & Hmk)|[Hl Hmk]].
    + rewrite Hmk. split.
      * by intros [= <-].
      * intros Hu. f_equal.
        by apply (linked_functional s o (relationships (class_of o)) k).
    + rewrite Hmk, lookup_singleton_ne by done. split; [done|].
      intros Hu. by destruct (Hl u).
Qed.

(** *** Update *)

Lemma foldl_insert_lookup {V} (g : string → V) (ks : list string)
    (acc : gmap string V) (k : string) :
  foldl (λ m k', <[k' := g k']> m) acc ks !! k
  = if decide (k ∈ ks) then Some (g k) else acc !! k.
Proof.
  revert acc. induction ks as [|k0 ks IH]; intros acc; cbn [foldl].
  - case_decide as Hin; [by apply elem_of_nil in Hin|done].
  - rewrite IH.
    destruct (decide (k ∈ ks)) as [Hin|Hnotin],
      (decide (k ∈ k0 :: ks)) as [Hin'|Hnotin']; try done.
    + exfalso. apply Hnotin'. apply elem_of_cons. by right.
    + apply elem_of_cons in Hin' as [->|?]; [|done].
      by rewrite lookup_insert_eq.
    + rewrite lookup_insert_ne; [done|].
      intros ->. apply Hnotin'. apply elem_of_cons. by left.
Qed.

Lemma getitem_app_keys (d d' : pydict) (k : string) :
  k ∈ keys d → getitem (d ++ d') k = getitem d k.
Proof.
  unfold keys. induction d as [|[k0 v0] d IH]; simpl.
  - by intros ?%elem_of_nil.
  - intros Hin. destruct (String.eqb k0 k) eqn:Heq; [done|].
    apply elem_of_cons in Hin as [->|Hin]; [|by apply IH].
    by rewrite String.eqb_refl in Heq.
Qed.

Lemma getitem_keys (d : pydict) (k : string) :
  k ∈ keys d → is_Some (getitem d k).
Proof.
  unfold keys. induction d as [|[k0 v0] d IH]; simpl.
  - by intros ?%elem_of_nil.
  - intros Hin. destruct (String.eqb k0 k) eqn:Heq; [by eexists|].
    apply elem_of_cons in Hin as [->|Hin]; [|by apply IH].
    by rewrite String.eqb_refl in Heq.
Qed.

(** The attributes of an instance after the keys [ks] were assigned the
    values [g] gives them. *)
Lemma update_loop_run (attributes : pydict) (g : string → value)
    (ks ks' : list string) (s : store) (self : loc) (o : object) :
  s !! self = Some o →
  (∀ k, k ∈ ks → getitem attributes k = Some (g k)) →
  (∀ k, k ∈ ks → k ∉ read_only (class_of o)) →
  update_loop self (ks ++ ks') attributes s
  = update_loop self ks' attributes
      (<[self := Object (class_of o)
                   (foldl (λ a k, <[k := g k]> a) (attrs o) ks)]> s).
Proof.
  revert s o. induction ks as [|k ks IH]; intros s o Hs Hg Hro; simpl.
  - destruct o as [cls a]. simpl. by rewrite insert_id.
  - run. rewrite (Hg k) by (apply elem_of_cons; by left).
    assert (k ∉ read_only (class_of o)) as Hk
      by (apply Hro, elem_of_cons; by left).
    unfold read_only in Hk. apply not_elem_of_union in Hk as [Hk1 Hk2].
    unfold setattr, put. run. rewrite Hs.
    rewrite (bool_decide_eq_false_2 _ Hk2), (bool_decide_eq_false_2 _ Hk1).
    simpl.
    rewrite (IH _ (Object (class_of o) (<[k := g k]> (attrs o)))).
    + simpl. by rewrite insert_insert_eq.
    + by rewrite lookup_insert_eq.
    + intros k' Hin. apply Hg, elem_of_cons. by right.
    + intros k' Hin. simpl. apply Hro, elem_of_cons. by right.
Qed.

Lemma update_run (attributes : pydict) (g : string → value)
    (s : store) (self : loc) (o : object) :
  s !! self = Some o →
  (∀ k, k ∈ keys attributes → getitem attributes k = Some (g k)) →
  (∀ k, k ∈ keys attributes → k ∉ read_only (class_of o)) →
  update self attributes s
  = (Ok self,
     <[self := Object (class_of o)
                 (foldl (λ a k, <[k := g k]> a) (attrs o) (keys attributes))]>
       s).
Proof.
  intros Hs Hg Hro. unfold update. run.
  pose proof (update_loop_run attributes g (keys attributes) [] s self o
                Hs Hg Hro) as Hrun.
  rewrite app_nil_r in Hrun. by rewrite Hrun.
Qed.

(** C3, amended: when no key of [attributes] is a name the class makes
    unassignable, [update(attributes)] binds every key of [attributes], a
    column name or not, to the value given for it, whatever the value,
    leaves the other attributes and the other objects as they were, and
    returns the reference it was called on. *)
Theorem update_sets_attributes
    (s : store) (self : loc) (o : object) (attributes : pydict) :
  s !! self = Some o →
  (∀ k, k ∈ keys attributes → k ∉ read_only (class_of o)) →
  ∃ o' : object,
    update self attributes s = (Ok self, <[self := o']> s)
    ∧ class_of o' = class_of o
    ∧ (∀ k, k ∈ keys attributes → attrs o' !! k = getitem attributes k)
    ∧ (∀ k, k ∉ keys attributes → attrs o' !! k = attrs o !! k).
Proof.
  intros Hs Hro.
  set (g := λ k, default VNone (getitem attributes k)).
  assert (∀ k, k ∈ keys attributes → getitem attributes k = Some (g k))
    as Hg.
  { intros k Hk. unfold g.
    by destruct (getitem_keys attributes k Hk) as [v ->]. }
  exists (Object (class_of o)
            (foldl (λ a k, <[k := g k]> a) (attrs o) (keys attributes))).
  split; [|split; [done|split]].
  - by apply update_run.
  - intros k Hk. simpl.
    rewrite foldl_insert_lookup, decide_True by done. by rewrite Hg.
  - intros k Hk. simpl.
    by rewrite foldl_insert_lookup, decide_False.
Qed.

(** C4: when the assignment of a key raises [AttributeError], every key
    before it being assignable, [update()] raises it there and rolls
    nothing back: the instance is left as the update by the keys before
    leaves it, each of them bound to the value given for it and every
    other attribute as it was. *)
Theorem update_not_atomic
    (s : store) (self : loc) (o : object)
    (before : pydict) (k : string) (v : value) (after : pydict) :
  s !! self = Some o →
  (∀ k', k' ∈ keys before → k' ∉ read_only (class_of o)) →
  k ∈ unsettable (class_of o) →
  k ∉ type_checked →
  ∃ o' : object,
    update self (before ++ (k, v) :: after) s
    = (Raise AttributeError, <[self := o']> s)
    ∧ update self before s = (Ok self, <[self := o']> s)
    ∧ class_of o' = class_of o
    ∧ (∀ k', k' ∈ keys before → attrs o' !! k' = getitem before k')
    ∧ (∀ k', k' ∉ keys before → attrs o' !! k' = attrs o !! k').
Proof.
  intros Hs Hro Hk Hk'.
  set (g := λ k', default VNone (getitem before k')).
  assert (∀ k', k' ∈ keys before → getitem before k' = Some (g k'))
    as Hg.
  { intros k0 Hk0. unfold g.
    by destruct (getitem_keys before k0 Hk0) as [v' ->]. }
  exists (Object (class_of o)
            (foldl (λ a k, <[k := g k]> a) (attrs o) (keys before))).
  split; [|split; [|split; [done|split]]].
  - unfold update, keys. run. rewrite fmap_app, fmap_cons.
    rewrite (update_loop_run _ g (fst <$> before) _ s self o Hs); [|
      intros k0 Hk0; rewrite getitem_app_keys by done; by apply Hg |
      done].
    simpl. run.
    destruct (getitem_keys (before ++ (k, v) :: after) k) as [v' ->].
    { unfold keys. rewrite fmap_app, fmap_cons, elem_of_app, elem_of_cons.
      right. by left. }
    unfold setattr. run. rewrite lookup_insert_eq. simpl.
    rewrite (bool_decide_eq_false_2 _ Hk'), (bool_decide_eq_true_2 _ Hk).
    reflexivity.
  - by apply update_run.
  - intros k0 Hk0. simpl.
    rewrite foldl_insert_lookup, decide_True by done. by rewrite Hg.
  - intros k0 Hk0. simpl.
    by rewrite foldl_insert_lookup, decide_False.
Qed.

(** ** Beyond the specification: what the code shows *)

(** *** Methods that only read *)

Lemma reads_only_ret {A} (a : A) : reads_only (mret a : M A).
Proof. by intros s. Qed.

Lemma reads_only_raise {A} (e : exn) : reads_only (raise e : M A).
Proof. by intros s. Qed.

Lemma reads_only_bind {A B} (m : M A) (f : A → M B) :
  reads_only m → (∀ a, reads_only (f a)) → reads_only (m ≫= f).
Proof.
  intros Hm Hf s. run. specialize (Hm s).
  destruct (m s) as [[a|e] s1]; simpl in *; subst s1; [apply Hf|done].
Qed.

Lemma reads_only_deref (l : loc) : reads_only (deref l).
Proof. intros s. unfold deref. by destruct (s !! l). Qed.

Lemma reads_only_getattr (self : loc) (k : string) :
  reads_only (getattr self k).
Proof.
  apply reads_only_bind; [apply reads_only_deref|].
  intros o. destruct (attrs o !! k);
    [apply reads_only_ret|apply reads_only_raise].
Qed.

Lemma reads_only_primary_key (self : loc) : reads_only (primary_key self).
Proof.
  apply reads_only_bind; [apply reads_only_deref|].
  intros o. destruct (Table.primary_key_columns _);
    [apply reads_only_raise|apply reads_only_ret].
Qed.

Lemma reads_only_to_dict_loop (self : loc) (cols : list string)
    (result_dict : gmap string value) :
  reads_only (to_dict_loop self cols result_dict).
Proof.
  revert result_dict.
  induction cols as [|column cols IH]; intros result_dict; simpl.
  - apply reads_only_ret.
  - apply reads_only_bind.
    + apply reads_only_bind; [apply reads_only_deref|].
      intros o. apply reads_only_ret.
    + intros v. destruct v as [| | | |d| |]; try apply IH.
      destruct (float_of_decimal d); [apply IH|apply reads_only_raise].
Qed.

Lemma reads_only_resource_uri (self : loc) : reads_only (resource_uri self).
Proof.
  apply reads_only_bind; [apply reads_only_deref|]. intros o.
  apply reads_only_bind.
  { destruct (__url__ (class_of o));
      [apply reads_only_ret|apply reads_only_raise]. }
  intros prefix. apply reads_only_bind; [apply reads_only_primary_key|].
  intros pk. apply reads_only_bind; [apply reads_only_getattr|].
  intros v. apply reads_only_ret.
Qed.

Lemma reads_only_links_loop (self : loc) (rels : list Relationship.t)
    (link_dict : gmap string string) :
  reads_only (links_loop self rels link_dict).
Proof.
  revert link_dict.
  induction rels as [|r rels IH]; intros link_dict; simpl.
  - apply reads_only_ret.
  - destruct (contains "collection" (Relationship.key r)); simpl; [apply IH|].
    apply reads_only_bind; [apply reads_only_getattr|].
    intros instance. destruct (truthy instance); [|apply IH].
    apply reads_only_bind; [|intros uri; apply IH].
    destruct instance; simpl;
      try apply reads_only_raise; apply reads_only_resource_uri.
Qed.

(** X1: [required], [optional], [primary_key], [to_dict], [resource_uri]
    and [links] leave every object as it was, in every store and for every
    reference, also when they raise. *)
Theorem queries_keep_store (cls : class) (self : loc) (s : store) :
  (required cls s).2 = s ∧ (optional cls s).2 = s
  ∧ (primary_key self s).2 = s ∧ (to_dict self s).2 = s
  ∧ (resource_uri self s).2 = s ∧ (links self s).2 = s.
Proof.
  split; [reflexivity|]. split; [reflexivity|].
  split; [apply reads_only_primary_key|].
  split; [|split; [apply reads_only_resource_uri|]].
  - apply (reads_only_bind (deref self)); [apply reads_only_deref|].
    intros o. apply reads_only_to_dict_loop.
  - apply (reads_only_bind (resource_uri self));
      [apply reads_only_resource_uri|].
    intros uri. apply reads_only_bind; [apply reads_only_deref|].
    intros o. apply reads_only_links_loop.
Qed.
(** [resource_uri()] on a live instance, case by case. *)
Lemma resource_uri_run (s : store) (self : loc) (o : object) :
  s !! self = Some o →
  resource_uri self s
  = (match __url__ (class_of o),
           Table.primary_key_columns (__table__ (class_of o)) with
     | None, _ => Raise TypeError
     | Some url, [] => Raise IndexError
     | Some url, column :: _ =>
         match attrs o !! Column.name column with
         | None => Raise AttributeError
         | Some v => Ok ((url +:+ "/") +:+ str v)
         end
     end, s).
Proof.
  intros Hs. unfold resource_uri. run. rewrite Hs.
  destruct (__url__ (class_of o)) as [url|]; simpl; [|done].
  rewrite (primary_key_run s self o Hs).
  destruct (Table.primary_key_columns (__table__ (class_of o)))
    as [|column rest]; simpl; [done|].
  rewrite (getattr_run s self o _ Hs).
  by destruct (attrs o !! Column.name column).
Qed.

(** X2: the order in which [resource_uri()] of an ordinary instance
    fails.  On a class without [__url__] it raises [TypeError], whatever
    the table; with [__url__], [IndexError] when the table has no
    primary-key column; with both, [AttributeError] when the instance
    lacks the attribute the first column of the key names, the name
    being no reserved one.  The store stays as it was. *)
Theorem resource_uri_outcome (s : store) (self : loc) (o : object) :
  s !! self = Some o →
  ordinary o →
  (__url__ (class_of o) = None →
     resource_uri self s = (Raise TypeError, s))
  ∧ (∀ url, __url__ (class_of o) = Some url →
       Table.primary_key_columns (__table__ (class_of o)) = [] →
       resource_uri self s = (Raise IndexError, s))
  ∧ (∀ url column rest, __url__ (class_of o) = Some url →
       Table.primary_key_columns (__table__ (class_of o))
       = column :: rest →
       reserved (Column.name column) = false →
       attrs o !! Column.name column = None →
       resource_uri self s = (Raise AttributeError, s)).
Proof.
  intros Hs _. rewrite (resource_uri_run s self o Hs).
  split; [|split].
  - by intros ->.
  - by intros url -> ->.
  - by intros url column rest -> -> _ ->.
Qed.

(** *** Links, whatever the relationships hold *)

Lemma prefix_spec (sub s : string) :
  String.prefix sub s = true ↔ ∃ post, s = sub +:+ post.
Proof.
  revert s. induction sub as [|a sub IH]; intros s.
  - destruct s; simpl; split; eauto.
  - destruct s as [|b s]; simpl.
    + split; [done|]. by intros [post ?].
    + destruct (Ascii.ascii_dec a b) as [->|Hne].
      * rewrite IH. split; intros [post Hpost]; exists post.
        -- by subst.
        -- change (String b s = String b (sub +:+ post)) in Hpost.
           congruence.
      * split; [done|]. intros [post Hpost].
        change (String b s = String a (sub +:+ post)) in Hpost. congruence.
Qed.

(** [contains sub s] holds exactly when [sub] occurs in [s]. *)
Lemma contains_spec (sub s : string) :
  contains sub s = true ↔ ∃ pre post, s = pre +:+ sub +:+ post.
Proof.
  split.
  - induction s as [|a s IH]; cbn [contains].
    + destruct (String.prefix sub "") eqn:Hp; [|done].
      intros _. apply prefix_spec in Hp as [post ->]. by exists "", post.
    + destruct (String.prefix sub (String a s)) eqn:Hp.
      * intros _. apply prefix_spec in Hp as [post ->]. by exists "", post.
      * intros (pre & post & ->)%IH. by exists (String a pre), post.
  - intros (pre & post & ->).
    induction pre as [|a pre IH].
    + change ("" +:+ sub +:+ post) with (sub +:+ post).
      assert (String.prefix sub (sub +:+ post) = true) as Hp
        by (apply prefix_spec; eauto).
      destruct (sub +:+ post); cbn [contains]; by rewrite Hp.
    + change (String a pre +:+ sub +:+ post)
        with (String a (pre +:+ sub +:+ post)).
      cbn [contains]. rewrite IH. by destruct (String.prefix _ _).
Qed.

(** What a run of the loop of [links] that returns tells. *)
Lemma links_loop_inv (s s' : store) (self : loc) (o : object)
    (rels : list Relationship.t) (acc m : gmap string string) :
  s !! self = Some o →
  links_loop self rels acc s = (Ok m, s') →
  (∀ r, r ∈ rels →
     contains "collection" (Relationship.key r) = false →
     ∃ v, attrs o !! Relationship.key r = Some v
          ∧ (truthy v = false
             ∨ ∃ l u, v = VRef l ∧ resource_uri l s = (Ok u, s)))
  ∧ ∀ k, (∃ u, linked s o rels k u ∧ m !! k = Some u)
         ∨ ((∀ u, ¬ linked s o rels k u) ∧ m !! k = acc !! k).
Proof.
  intros Hs. revert acc.
  induction rels as [|r rels IH]; intros acc; simpl.
  { intros [= <- <-]. split.
    - by intros r ?%elem_of_nil.
    - intros k. right. split; [|done].
      intros u (r & l & Hin & _). by apply elem_of_nil in Hin. }
  destruct (contains "collection" (Relationship.key r)) eqn:Hcoll; simpl.
  - intros Hrun. destruct (IH acc Hrun) as [Hvals Hm]. split.
    + intros r' [->|Hin]%elem_of_cons Hr'; [congruence|by apply Hvals].
    + intros k. destruct (Hm k) as [(u & Hl & Hk)|[Hl Hk]]; [left|right].
      * exists u. split; [|done]. apply linked_cons_skip; [|done].
        intros l ?. congruence.
      * split; [|done]. intros u Hu. apply (Hl u).
        apply linked_cons_skip in Hu; [done|]. intros l ?. congruence.
  - run. rewrite (getattr_run s self o _ Hs).
    destruct (attrs o !! Relationship.key r) as [v|] eqn:Hv; [|done].
    destruct (truthy v) eqn:Htrue.
    + destruct v as [| | | | | |l]; simpl; try done.
      pose proof (reads_only_resource_uri l s) as Hstore.
      destruct (resource_uri l s) as [[u|e] s1] eqn:Huri; [|done].
      simpl in Hstore. subst s1.
      intros Hrun.
      destruct (IH (<[Relationship.key r := u]> acc) Hrun) as [Hvals Hm].
      split.
      * intros r' [->|Hin]%elem_of_cons Hr'; [|by apply Hvals].
        exists (VRef l). split; [done|]. right. by exists l, u.
      * intros k.
        assert (linked s o (r :: rels) (Relationship.key r) u) as Hhere.
        { exists r, l. split; [apply elem_of_cons; by left|done]. }
        destruct (Hm k) as [(u' & Hl & Hk)|[Hl Hk]].
        -- left. exists u'. split; [|done].
           destruct Hl as (r' & l' & Hin & Hrest). exists r', l'.
           split; [|done]. apply elem_of_cons. by right.
        -- destruct (decide (k = Relationship.key r)) as [->|Hne].
           ++ left. exists u. split; [done|].
              by rewrite Hk, lookup_insert_eq.
           ++ right. split.
              ** intros u' (r' & l' & Hin & Hkey & Hrest).
                 apply elem_of_cons in Hin as [->|Hin]; [congruence|].
                 apply (Hl u'). by exists r', l'.
              ** by rewrite Hk, lookup_insert_ne.
    + intros Hrun. destruct (IH acc Hrun) as [Hvals Hm]. split.
      * intros r' [->|Hin]%elem_of_cons Hr'; [|by apply Hvals].
        exists v. split; [done|]. by left.
      * intros k.
        assert (∀ l, contains "collection" (Relationship.key r) = false →
                     attrs o !! Relationship.key r ≠ Some (VRef l)) as Hskip.
        { intros l _. rewrite Hv. intros [= ->]. done. }
        destruct (Hm k) as [(u & Hl & Hk)|[Hl Hk]]; [left|right].
        -- exists u. split; [|done]. by apply linked_cons_skip.
        -- split; [|done]. intros u Hu. apply (Hl u).
           by apply linked_cons_skip in Hu.
Qed.

Lemma links_inv (s s' : store) (self : loc) (m : gmap string string) :
  links self s = (Ok m, s') →
  ∃ o uri,
    s !! self = Some o
    ∧ resource_uri self s = (Ok uri, s)
    ∧ links_loop self (relationships (class_of o)) {[ "self" := uri ]} s
      = (Ok m, s').
Proof.
  unfold links. run.
  pose proof (reads_only_resource_uri self s) as Hstore.
  destruct (resource_uri self s) as [[uri|e] s1] eqn:Huri; [|done].
  simpl in Hstore. subst s1.
  destruct (s !! self) as [o|] eqn:Hs; [|done].
  intros Hrun. by exists o, uri.
Qed.

(** X3: whenever [links()] returns, the instance's [resource_uri()]
    returned, and every relationship whose key does not contain
    "collection" has its attribute on the instance, holding a false value
    or an object whose [resource_uri()] returns; in any other case
    [links()] raises. *)
Theorem links_returns_only_if
    (s s' : store) (self : loc) (o : object) (m : gmap string string) :
  s !! self = Some o →
  links self s = (Ok m, s') →
  (∃ uri, resource_uri self s = (Ok uri, s))
  ∧ ∀ r, r ∈ relationships (class_of o) →
      contains "collection" (Relationship.key r) = false →
      ∃ v, attrs o !! Relationship.key r = Some v
           ∧ (truthy v = false
              ∨ ∃ l u, v = VRef l ∧ resource_uri l s = (Ok u, s)).
Proof.
  intros Hs Hlinks.
  destruct (links_inv s s' self m Hlinks) as (o' & uri & Hs' & Huri & Hrun).
  assert (o' = o) as -> by congruence.
  split; [by exists uri|].
  by destruct (links_loop_inv s s' self o _ _ m Hs Hrun) as [Hvals _].
Qed.

(** X4: the mapping [links()] returns, whatever the relationships are
    keyed: [k] is bound to [u] exactly when a relationship keyed [k],
    without "collection" in its key, holds an object whose
    [resource_uri()] is [u], or when [k] is "self", no such relationship
    is keyed "self" and [u] is the instance's [resource_uri()].  A
    relationship keyed "self" that holds an object takes the place of the
    instance's own link. *)
Theorem links_entries
    (s s' : store) (self : loc) (o : object) (m : gmap string string) :
  s !! self = Some o →
  links self s = (Ok m, s') →
  ∀ k u,
    m !! k = Some u
    ↔ linked s o (relationships (class_of o)) k u
      ∨ (k = "self" ∧ resource_uri self s = (Ok u, s)
         ∧ ∀ u', ¬ linked s o (relationships (class_of o)) "self" u').
Proof.
  intros Hs Hlinks k u.
  destruct (links_inv s s' self m Hlinks) as (o' & uri & Hs' & Huri & Hrun).
  assert (o' = o) as -> by congruence.
  destruct (links_loop_inv s s' self o _ _ m Hs Hrun) as [_ Hm].
  destruct (Hm k) as [(u' & Hl & Hk)|[Hl Hk]]; rewrite Hk.
  - split.
    + intros [= <-]. by left.
    + intros [Hu|(-> & _ & Hnone)]; [|by destruct (Hnone u')].
      f_equal.
      by apply (linked_functional s o (relationships (class_of o)) k).
  - destruct (decide (k = "self")) as [->|Hne].
    + rewrite lookup_singleton_eq. split.
      * intros [= <-]. right. done.
      * intros [Hu|(_ & Hu & _)]; [by destruct (Hl u)|congruence].
    + rewrite lookup_singleton_ne by done. split; [done|].
      intros [Hu|(-> & _)]; [by destruct (Hl u)|done].
Qed.

(** X5: no key of the mapping [links()] returns has "collection" in it,
    and "self" is always a key. *)
Theorem links_keys
    (s s' : store) (self : loc) (m : gmap string string) :
  links self s = (Ok m, s') →
  is_Some (m !! "self")
  ∧ ∀ k pre post,
      is_Some (m !! k) → k ≠ pre +:+ "collection" +:+ post.
Proof.
  intros Hlinks.
  destruct (links_inv s s' self m Hlinks) as (o & uri & Hs & Huri & Hrun).
  destruct (links_loop_inv s s' self o _ _ m Hs Hrun) as [_ Hm].
  split.
  - destruct (Hm "self") as [(u & _ & Hk)|[_ Hk]]; rewrite Hk; [done|].
    by rewrite lookup_singleton_eq.
  - intros k pre post [u Hu] ->.
    destruct (Hm (pre +:+ "collection" +:+ post))
      as [(u' & Hl & _)|[_ Hk]].
    + destruct Hl as (r & l & _ & _ & Hcoll & _).
      assert (contains "collection" (pre +:+ "collection" +:+ post) = true)
        as Hin by (apply contains_spec; eauto).
      congruence.
    + rewrite Hk in Hu.
      destruct (decide (pre +:+ "collection" +:+ post = "self"))
        as [Heq|Hne].
      * assert (contains "collection" "self" = true) as Hin
          by (apply contains_spec; exists pre, post; done).
        discriminate Hin.
      * by rewrite lookup_singleton_ne in Hu.
Qed.

(** *** Update, whether it returns or raises *)

Lemma assigned_sub (cls : class) (ks : list string) (k : string) :
  k ∈ assigned cls ks → k ∈ ks ∧ k ∉ read_only cls.
Proof.
  induction ks as [|k0 ks IH]; simpl; [by intros ?%elem_of_nil|].
  case_bool_decide as Hro; [by intros ?%elem_of_nil|].
  intros [->|Hin]%elem_of_cons.
  - split; [apply elem_of_cons; by left|done].
  - destruct (IH Hin). split; [apply elem_of_cons; by right|done].
Qed.

(** [update] gets through all the keys and ends well, or stops at the
    first key that cannot be assigned and ends with its exception. *)
Lemma assigned_stops (cls : class) (ks : list string) :
  (assigned cls ks = ks ∧ ending cls ks = Ok tt)
  ∨ ∃ k rest, ks = assigned cls ks ++ k :: rest ∧ k ∈ read_only cls
              ∧ ending cls ks = Raise (refusal k).
Proof.
  induction ks as [|k0 ks IH]; simpl; [by left|].
  case_bool_decide as Hro.
  - right. by exists k0, ks.
  - destruct IH as [[-> ->]|(k & rest & Hks & Hk & ->)]; [by left|].
    right. exists k, rest. split; [|done]. simpl. by f_equal.
Qed.

Lemma assigned_all (cls : class) (ks : list string) :
  (∀ k, k ∈ ks → k ∉ read_only cls) →
  assigned cls ks = ks ∧ ending cls ks = Ok tt.
Proof.
  induction ks as [|k0 ks IH]; intros Hks; simpl; [done|].
  rewrite bool_decide_eq_false_2 by (apply Hks, elem_of_cons; by left).
  destruct IH as [-> ->]; [|done].
  intros k Hk. apply Hks, elem_of_cons. by right.
Qed.

Lemma assigned_short (cls : class) (ks : list string) (k : string)
    (rest : list string) :
  ks = assigned cls ks ++ k :: rest → assigned cls ks ≠ ks.
Proof.
  intros Hks Heq. rewrite Heq in Hks. apply (f_equal length) in Hks.
  rewrite length_app in Hks. simpl in Hks. lia.
Qed.

Lemma ending_Ok (cls : class) (ks : list string) :
  ending cls ks = Ok tt ↔ assigned cls ks = ks.
Proof.
  destruct (assigned_stops cls ks) as [[Heq ->]|(k & rest & Hks & _ & ->)].
  - done.
  - split; [done|]. intros Heq. by destruct (assigned_short _ _ _ _ Hks).
Qed.

Lemma item_keys (attributes : pydict) (k : string) :
  k ∈ keys attributes → getitem attributes k = Some (item attributes k).
Proof.
  intros Hk. unfold item.
  by destruct (getitem_keys attributes k Hk) as [v ->].
Qed.

Lemma assign_lookup (attributes : pydict) (ks : list string)
    (a : gmap string value) (k : string) :
  assign attributes ks a !! k
  = if decide (k ∈ ks) then Some (item attributes k) else a !! k.
Proof. apply foldl_insert_lookup. Qed.

(** The whole of what [update] does to a live instance. *)
Lemma update_outcome (s : store) (self : loc) (o : object)
    (attributes : pydict) :
  s !! self = Some o →
  update self attributes s
  = (match ending (class_of o) (keys attributes) with
     | Ok _ => Ok self
     | Raise e => Raise e
     end,
     <[self := Object (class_of o)
                 (assign attributes
                    (assigned (class_of o) (keys attributes)) (attrs o))]>
       s).
Proof.
  intros Hs.
  assert (∀ k, k ∈ assigned (class_of o) (keys attributes) →
               getitem attributes k = Some (item attributes k)) as Hitem.
  { intros k [Hk _]%assigned_sub. by apply item_keys. }
  assert (∀ k, k ∈ assigned (class_of o) (keys attributes) →
               k ∉ read_only (class_of o)) as Hro.
  { by intros k [_ Hk]%assigned_sub. }
  destruct (assigned_stops (class_of o) (keys attributes))
    as [[Hall ->]|(k & rest & Hks & Hk & ->)].
  - rewrite Hall in *. by apply update_run.
  - unfold update. run. rewrite Hks at 1.
    rewrite (update_loop_run attributes (item attributes) _ _ s self o
               Hs Hitem Hro).
    simpl. run.
    rewrite (item_keys attributes k).
    2:{ rewrite Hks. apply elem_of_app. right. apply elem_of_cons. by left. }
    unfold setattr, refusal. run. rewrite lookup_insert_eq. simpl.
    case_bool_decide as Htype; [done|].
    rewrite bool_decide_eq_true_2; [done|].
    unfold read_only in Hk. by apply elem_of_union in Hk as [Hk|Hk].
Qed.


(** A call of a method no attribute of the instance hides is the
    method; a call of a name the instance binds raises [TypeError]. *)
Lemma call_run {A} (s : store) (self : loc) (o : object) (name : string)
    (m : M A) :
  s !! self = Some o → attrs o !! name = None → call self name m s = m s.
Proof. intros Hs Hname. unfold call. run. by rewrite Hs, Hname. Qed.

Lemma call_hidden {A} (s : store) (self : loc) (o : object) (name : string)
    (v : value) (m : M A) :
  s !! self = Some o → attrs o !! name = Some v →
  call self name m s = (Raise TypeError, s).
Proof. intros Hs Hname. unfold call. run. by rewrite Hs, Hname. Qed.

Lemma method_reserved (name : string) :
  name ∈ method_names → reserved name = true.
Proof.
  intros Hname. unfold reserved.
  by rewrite (bool_decide_eq_true_2 _ Hname).
Qed.

(** An update by plain keys keeps an ordinary instance ordinary. *)
Lemma assign_ordinary (cls : class) (attributes : pydict)
    (ks : list string) (a : gmap string value) :
  ordinary (Object cls a) →
  (∀ k, k ∈ ks → reserved k = false) →
  ordinary (Object cls (assign attributes ks a)).
Proof.
  intros Ho Hks k Hk. simpl. rewrite assign_lookup.
  case_decide as Hin; [|by apply Ho].
  rewrite (Hks k Hin) in Hk. done.
Qed.

Lemma update_ordinary (o : object) (attributes : pydict) :
  ordinary o → plain_keys attributes →
  ordinary (Object (class_of o)
              (assign attributes
                 (assigned (class_of o) (keys attributes)) (attrs o))).
Proof.
  intros Ho Hplain. apply assign_ordinary; [by destruct o|].
  intros k [Hk _]%assigned_sub. by apply Hplain.
Qed.

(** X7: [update()] of an ordinary instance with the same [attributes],
    none of them a reserved name, a second time changes nothing more: the
    call returns or raises as the first time and leaves the store the
    first call left. *)
Theorem update_twice
    (s : store) (self : loc) (o : object) (attributes : pydict) :
  s !! self = Some o →
  ordinary o →
  plain_keys attributes →
  call self "update" (update self attributes)
    (call self "update" (update self attributes) s).2
  = call self "update" (update self attributes) s.
Proof.
  intros Hs Ho Hplain.
  assert (reserved "update" = true) as Hres by done.
  rewrite (call_run s self o) by (done || by apply Ho).
  rewrite (update_outcome s self o attributes Hs). simpl.
  erewrite call_run;
    [|apply lookup_insert_eq|by apply (update_ordinary o attributes)].
  erewrite update_outcome by apply lookup_insert_eq. simpl.
  f_equal. rewrite insert_insert_eq. do 2 f_equal.
  apply map_eq. intros k. rewrite !assign_lookup.
  by case_decide.
Qed.

Lemma assign_ext (attributes attributes' : pydict) (ks : list string)
    (a : gmap string value) :
  (∀ k, k ∈ ks → item attributes k = item attributes' k) →
  assign attributes ks a = assign attributes' ks a.
Proof.
  intros Hks. apply map_eq. intros k. rewrite !assign_lookup.
  case_decide; [|done]. by rewrite Hks.
Qed.

Lemma item_app_l (d d' : pydict) (k : string) :
  k ∈ keys d → item (d ++ d') k = item d k.
Proof. intros Hk. unfold item. by rewrite getitem_app_keys. Qed.

Lemma item_app_r (d d' : pydict) (k : string) :
  k ∉ keys d → item (d ++ d') k = item d' k.
Proof.
  unfold item, keys. induction d as [|[k0 v0] d IH]; simpl; [done|].
  intros Hk. destruct (String.eqb k0 k) eqn:Heq.
  - apply String.eqb_eq in Heq as ->.
    exfalso. apply Hk, elem_of_cons. by left.
  - apply IH. intros Hin. apply Hk, elem_of_cons. by right.
Qed.

Lemma assigned_app (cls : class) (ks ks' : list string) :
  assigned cls (ks ++ ks')
  = if decide (assigned cls ks = ks) then ks ++ assigned cls ks'
    else assigned cls ks.
Proof.
  induction ks as [|k ks IH]; simpl; [done|].
  case_bool_decide as Hro; [done|]. rewrite IH.
  destruct (decide (assigned cls ks = ks)) as [Heq|Hne].
  - by rewrite decide_True by (by f_equal).
  - rewrite decide_False; [done|]. by intros [= ?].
Qed.

Lemma ending_app (cls : class) (ks ks' : list string) :
  ending cls (ks ++ ks')
  = match ending cls ks with
    | Ok _ => ending cls ks'
    | Raise e => Raise e
    end.
Proof.
  induction ks as [|k ks IH]; simpl; [done|].
  by case_bool_decide.
Qed.

Lemma assign_app (attributes : pydict) (ks ks' : list string)
    (a : gmap string value) :
  assign attributes (ks ++ ks') a
  = assign attributes ks' (assign attributes ks a).
Proof. unfold assign. by rewrite foldl_app. Qed.

(** X8: two mappings that share no key, the first without a reserved
    name: [update()] of an ordinary instance with the one, then with the
    other, does what one [update()] with both does, in what it returns
    or raises and in the store it leaves. *)
Theorem update_app
    (s : store) (self : loc) (o : object) (d1 d2 : pydict) :
  s !! self = Some o →
  ordinary o →
  plain_keys d1 →
  (∀ k, k ∈ keys d1 → k ∉ keys d2) →
  call self "update" (update self (d1 ++ d2)) s
  = (call self "update" (update self d1) ;;
     call self "update" (update self d2)) s.
Proof.
  intros Hs Ho Hplain Hdisj.
  assert (reserved "update" = true) as Hres by done.
  run. rewrite !(call_run s self o) by (done || by apply Ho).
  rewrite (update_outcome s self o (d1 ++ d2) Hs).
  rewrite (update_outcome s self o d1 Hs).
  unfold keys. rewrite fmap_app. fold (keys d1) (keys d2).
  rewrite assigned_app, ending_app.
  destruct (assigned_stops (class_of o) (keys d1))
    as [[Heq ->]|(k & rest & Hks & Hk & ->)].
  - rewrite decide_True by done.
    erewrite call_run;
      [|apply lookup_insert_eq|
       by apply (update_ordinary o d1 Ho Hplain)].
    erewrite update_outcome by apply lookup_insert_eq. simpl.
    rewrite insert_insert_eq, Heq, assign_app. f_equal.
    do 2 f_equal.
    rewrite (assign_ext (d1 ++ d2) d1 (keys d1)).
    2:{ intros k Hk. by apply item_app_l. }
    apply assign_ext. intros k [Hk _]%assigned_sub.
    apply item_app_r. intros Hk1. by apply (Hdisj k).
  - rewrite decide_False by (by apply (assigned_short _ _ _ _ Hks)).
    f_equal. do 2 f_equal.
    apply assign_ext. intros k' [Hk' _]%assigned_sub. by apply item_app_l.
Qed.

(** X17: an [update()] that binds the name of a method hides the method:
    the call of that name that follows raises [TypeError]. *)
Theorem update_hides_method {A}
    (s : store) (self : loc) (o : object) (attributes : pydict)
    (name : string) (m : M A) :
  s !! self = Some o →
  (∀ k, k ∈ keys attributes → k ∉ read_only (class_of o)) →
  name ∈ keys attributes →
  (update self attributes ;; call self name m) s
  = (Raise TypeError, (update self attributes s).2).
Proof.
  intros Hs Hro Hname. run.
  rewrite (update_outcome s self o attributes Hs).
  destruct (assigned_all _ _ Hro) as [-> ->]. simpl.
  erewrite call_hidden; [done|apply lookup_insert_eq|].
  simpl. by rewrite assign_lookup, decide_True.
Qed.

(** *** Update, then read *)

Lemma getitem_Some_keys (d : pydict) (k : string) (v : value) :
  getitem d k = Some v → k ∈ keys d.
Proof.
  unfold keys. induction d as [|[k0 v0] d IH]; simpl; [done|].
  destruct (String.eqb k0 k) eqn:Heq.
  - apply String.eqb_eq in Heq as ->. intros _. apply elem_of_cons. by left.
  - intros Hk. apply elem_of_cons. right. by apply IH.
Qed.

(** What a mapping [to_dict()] returned binds. *)
Lemma to_dict_lookup (s s' : store) (self : loc) (o : object)
    (m : gmap string value) :
  s !! self = Some o →
  to_dict self s = (Ok m, s') →
  ∀ k, m !! k
       = if decide (k ∈ Table.columns_keys (__table__ (class_of o)))
         then widened (default VNone (attrs o !! k))
         else None.
Proof.
  intros Hs. rewrite (to_dict_run s self o Hs).
  destruct (serialized o _ ∅) as [m'|] eqn:Hm; [|done].
  intros [= <- _] k.
  rewrite (serialized_lookup _ _ _ _ k Hm). by rewrite lookup_empty.
Qed.

Lemma to_dict_returns (s : store) (self : loc) (o : object) :
  s !! self = Some o →
  no_signalling_nan o (Table.columns_keys (__table__ (class_of o))) →
  ∃ m, to_dict self s = (Ok m, s).
Proof.
  intros Hs Hnan. rewrite (to_dict_run s self o Hs).
  destruct (serialized_is_Some o _ ∅ Hnan) as [m ->]. by exists m.
Qed.

Lemma widened_is_Some (v : value) :
  v ≠ VDecimal (DNaN true) → is_Some (widened v).
Proof.
  intros Hv. destruct (widened v) eqn:Hw; [done|].
  by apply widened_None in Hw.
Qed.

(** X9: after an [update()] of an ordinary instance that returns, no
    key a reserved name and no value a signalling NaN, [to_dict()] binds
    every column that is a key of [attributes] to the value given for it
    (a decimal widened to a float), binds every other column as before,
    and has the keys it had: a key of [attributes] that is no column does
    not show. *)
Theorem update_then_to_dict
    (s : store) (self : loc) (o : object) (attributes : pydict) :
  s !! self = Some o →
  ordinary o →
  plain_keys attributes →
  (∀ k, k ∈ keys attributes → k ∉ read_only (class_of o)) →
  no_signalling_nan o (Table.columns_keys (__table__ (class_of o))) →
  (∀ k, getitem attributes k ≠ Some (VDecimal (DNaN true))) →
  ∃ (m m' : gmap string value) (s' : store),
    to_dict self s = (Ok m, s)
    ∧ (call self "update" (update self attributes) ;;
       call self "to_dict" (to_dict self)) s = (Ok m', s')
    ∧ dom m' = dom m
    ∧ (∀ k v, k ∈ Table.columns_keys (__table__ (class_of o)) →
         getitem attributes k = Some v → m' !! k = widened v)
    ∧ (∀ k, k ∉ keys attributes → m' !! k = m !! k).
Proof.
  intros Hs Ho Hplain Hro Hnan Hnan'.
  destruct (to_dict_returns s self o Hs Hnan) as [m Hm].
  pose proof (to_dict_lookup s s self o m Hs Hm) as Hlook.
  pose proof (update_outcome s self o attributes Hs) as Hup.
  destruct (assigned_all _ _ Hro) as [Hall Hend].
  rewrite Hall, Hend in Hup.
  pose proof (update_ordinary o attributes Ho Hplain) as Ho'.
  rewrite Hall in Ho'.
  set (o' := Object (class_of o)
               (assign attributes (keys attributes) (attrs o))) in Hup, Ho'.
  assert (<[self := o']> s !! self = Some o') as Hs'
    by apply lookup_insert_eq.
  assert (no_signalling_nan o'
            (Table.columns_keys (__table__ (class_of o')))) as Hnan''.
  { intros k Hk. simpl. rewrite assign_lookup.
    case_decide as Hin; [|by apply Hnan].
    rewrite <- (item_keys attributes k Hin). apply Hnan'. }
  destruct (to_dict_returns _ self o' Hs' Hnan'') as [m' Hm'].
  pose proof (to_dict_lookup _ _ self o' m' Hs' Hm') as Hlook'.
  exists m, m', (<[self := o']> s).
  split; [done|]. split; [|split; [|split]].
  - assert (reserved "update" = true) as Hres by done.
    assert (reserved "to_dict" = true) as Hres' by done.
    run. rewrite (call_run s self o) by (done || by apply Ho).
    rewrite Hup.
    by rewrite (call_run _ self o') by (done || by apply Ho').
  - apply set_eq. intros k. rewrite !elem_of_dom, Hlook, Hlook'. simpl.
    case_decide as Hk; [|done]. split; intros _.
    + apply widened_is_Some. intros Hv. apply (Hnan k Hk).
      by apply default_signalling.
    + apply widened_is_Some. intros Hv. apply (Hnan'' k Hk).
      by apply default_signalling.
  - intros k v Hk Hv. rewrite Hlook'. simpl. rewrite decide_True by done.
    rewrite assign_lookup, decide_True
      by (by apply (getitem_Some_keys _ _ v)).
    unfold item. by rewrite Hv.
  - intros k Hk. rewrite Hlook, Hlook'. simpl.
    by rewrite assign_lookup, (decide_False (P := k ∈ keys attributes)).
Qed.

(** X10: an [update()] of an ordinary instance that names neither the
    primary-key attribute nor a reserved name, whether it returns or
    raises, leaves [resource_uri()] what it was. *)
Theorem update_keeps_resource_uri
    (s s' : store) (self : loc) (o : object) (attributes : pydict)
    (pk : string) (r : result loc) :
  s !! self = Some o →
  ordinary o →
  plain_keys attributes →
  primary_key self s = (Ok pk, s) →
  pk ∉ keys attributes →
  call self "update" (update self attributes) s = (r, s') →
  call self "resource_uri" (resource_uri self) s'
  = ((call self "resource_uri" (resource_uri self) s).1, s').
Proof.
  intros Hs Ho Hplain Hpk Hnot.
  assert (reserved "update" = true) as Hres by done.
  assert (reserved "resource_uri" = true) as Hres' by done.
  rewrite !(call_run s self o) by (done || by apply Ho).
  rewrite (update_outcome s self o attributes Hs).
  intros [= <- <-].
  erewrite call_run;
    [|apply lookup_insert_eq|by apply (update_ordinary o attributes)].
  erewrite (resource_uri_run (<[self := _]> s))
    by apply lookup_insert_eq.
  rewrite (resource_uri_run s self o Hs). simpl.
  rewrite (primary_key_run s self o Hs) in Hpk.
  destruct (__url__ (class_of o)); [|done].
  destruct (Table.primary_key_columns (__table__ (class_of o)))
    as [|column rest]; [done|].
  injection Hpk as ->.
  rewrite assign_lookup, decide_False; [done|].
  by intros [? _]%assigned_sub.
Qed.

(** *** Serialization and metadata *)

(** X11: no value of the mapping [to_dict()] returns is a [Decimal]. *)
Theorem to_dict_no_decimal
    (s s' : store) (self : loc) (m : gmap string value)
    (k : string) (d : decimal) :
  to_dict self s = (Ok m, s') → m !! k ≠ Some (VDecimal d).
Proof.
  destruct (s !! self) as [o|] eqn:Hs.
  - intros Hm. rewrite (to_dict_lookup s s' self o m Hs Hm).
    case_decide; [|done]. apply widened_no_decimal.
  - unfold to_dict. run. by rewrite Hs.
Qed.

(** X12: the columns that neither [required()] nor [optional()] lists
    are exactly the primary-key columns that are not nullable; a
    nullable primary-key column is listed by [optional()]. *)
Theorem columns_left_out
    (cls : class) (s s1 s2 : store) (req opt : list string) (x : string) :
  Table.unique_names (__table__ cls) →
  required cls s = (Ok req, s1) →
  optional cls s = (Ok opt, s2) →
  (x ∈ Table.names (__table__ cls) ∧ (x ∉ req) ∧ (x ∉ opt))
  ↔ (∃ c, c ∈ Table.columns (__table__ cls) ∧ Column.name c = x
          ∧ Column.primary_key c = true ∧ Column.nullable c = false).
Proof.
  intros Hnd. unfold required, optional. run.
  rewrite required_loop_app, optional_loop_app. simpl.
  intros [= <- _] [= <- _]. unfold Table.names.
  rewrite !list_elem_of_fmap. split.
  - intros [(c & -> & Hc) [Hreq Hopt]]. exists c. split; [done|].
    split; [done|].
    destruct (Column.nullable c) eqn:Hn.
    { exfalso. apply Hopt. exists c. split; [done|].
      by apply list_elem_of_filter. }
    destruct (Column.primary_key c) eqn:Hp; [done|].
    exfalso. apply Hreq. exists c. split; [done|].
    by apply list_elem_of_filter.
  - intros (c & Hc & <- & Hp & Hn). split; [by exists c|]. split.
    + intros (c' & Heq & [[_ Hp'] Hc']%list_elem_of_filter).
      assert (c = c') as <-
        by (by apply (name_identifies (Table.columns (__table__ cls)))).
      congruence.
    + intros (c' & Heq & [Hn' Hc']%list_elem_of_filter).
      assert (c = c') as <-
        by (by apply (name_identifies (Table.columns (__table__ cls)))).
      congruence.
Qed.

(** X13: the name [primary_key()] returns is never among the names
    [required()] returns. *)
Theorem primary_key_not_required
    (s s1 : store) (self : loc) (o : object) (pk : string)
    (req : list string) :
  s !! self = Some o →
  Table.unique_names (__table__ (class_of o)) →
  primary_key self s = (Ok pk, s) →
  required (class_of o) s = (Ok req, s1) →
  pk ∉ req.
Proof.
  intros Hs Hnd Hpk. rewrite (primary_key_run s self o Hs) in Hpk.
  unfold required. run. rewrite required_loop_app. simpl.
  intros [= <- _].
  destruct (Table.primary_key_columns (__table__ (class_of o)))
    as [|c rest] eqn:Hcols; [done|].
  injection Hpk as <-.
  assert (c ∈ Table.primary_key_columns (__table__ (class_of o)))
    as [Hp Hc]%primary_key_columns_spec
    by (rewrite Hcols; apply elem_of_cons; by left).
  intros (c' & Heq & [[_ Hp'] Hc']%list_elem_of_filter)%list_elem_of_fmap.
  assert (c = c') as <-
    by (by apply (name_identifies
                    (Table.columns (__table__ (class_of o))))).
  congruence.
Qed.


Lemma resource_uri_pair (l : loc) (s : store) :
  resource_uri l s = ((resource_uri l s).1, s).
Proof.
  pose proof (reads_only_resource_uri l s) as Hstore.
  destruct (resource_uri l s) as [r s1]. simpl in *. by subst.
Qed.

Lemma resource_uri_dangling (l : loc) (s : store) :
  s !! l = None → resource_uri l s = (Raise SystemError, s).
Proof. intros Hl. unfold resource_uri. run. by rewrite Hl. Qed.

(** [resource_uri()] of any object after the object at [self] changed
    neither its class nor its primary-key attribute. *)
Lemma resource_uri_agree (s : store) (self : loc) (o o' : object) (l : loc) :
  s !! self = Some o →
  class_of o' = class_of o →
  (∀ c, c ∈ Table.primary_key_columns (__table__ (class_of o)) →
        attrs o' !! Column.name c = attrs o !! Column.name c) →
  (resource_uri l (<[self := o']> s)).1 = (resource_uri l s).1.
Proof.
  intros Hs Hcls Hpk.
  destruct (decide (l = self)) as [->|Hne].
  - erewrite (resource_uri_run (<[self := o']> s))
      by apply lookup_insert_eq.
    rewrite (resource_uri_run s self o Hs). simpl. rewrite Hcls.
    destruct (__url__ (class_of o)); [|done].
    destruct (Table.primary_key_columns (__table__ (class_of o)))
      as [|c rest]; [done|].
    rewrite Hpk; [done|]. apply elem_of_cons. by left.
  - destruct (s !! l) as [o2|] eqn:Hl.
    + erewrite (resource_uri_run (<[self := o']> s))
        by (by rewrite lookup_insert_ne).
      by rewrite (resource_uri_run s l o2 Hl).
    + rewrite resource_uri_dangling by (by rewrite lookup_insert_ne).
      by rewrite resource_uri_dangling.
Qed.

Lemma links_loop_agree (s : store) (self : loc) (o o' : object)
    (rels : list Relationship.t) (acc : gmap string string) :
  s !! self = Some o →
  class_of o' = class_of o →
  (∀ c, c ∈ Table.primary_key_columns (__table__ (class_of o)) →
        attrs o' !! Column.name c = attrs o !! Column.name c) →
  (∀ r, r ∈ rels →
        attrs o' !! Relationship.key r = attrs o !! Relationship.key r) →
  (links_loop self rels acc (<[self := o']> s)).1
  = (links_loop self rels acc s).1.
Proof.
  intros Hs Hcls Hpk. revert acc.
  induction rels as [|r rels IH]; intros acc Hrels; simpl; [done|].
  assert (∀ r', r' ∈ rels →
     attrs o' !! Relationship.key r' = attrs o !! Relationship.key r')
    as Hrels' by (intros r' Hin; apply Hrels, elem_of_cons; by right).
  destruct (contains "collection" (Relationship.key r)); simpl;
    [by apply IH|].
  run. rewrite (getattr_run s self o _ Hs).
  rewrite (getattr_run (<[self := o']> s) self o')
    by apply lookup_insert_eq.
  rewrite Hrels by (apply elem_of_cons; by left).
  destruct (attrs o !! Relationship.key r) as [v|]; [|done].
  destruct (truthy v); [|by apply IH].
  destruct v as [| | | | | |l]; simpl; try done.
  rewrite (resource_uri_pair l s), (resource_uri_pair l (<[self := o']> s)).
  rewrite (resource_uri_agree s self o o' l Hs Hcls Hpk).
  destruct (resource_uri l s).1 as [u|e]; [|done].
  by apply IH.
Qed.

(** X15: an [update()] of an ordinary instance that names neither a
    primary-key column, nor a relationship, nor a reserved name, whether
    it returns or raises, leaves what [links()] returns or raises as it
    was. *)
Theorem update_keeps_links
    (s s' : store) (self : loc) (o : object) (attributes : pydict)
    (r : result loc) :
  s !! self = Some o →
  ordinary o →
  plain_keys attributes →
  (∀ c, c ∈ Table.primary_key_columns (__table__ (class_of o)) →
        Column.name c ∉ keys attributes) →
  (∀ rel, rel ∈ relationships (class_of o) →
        Relationship.key rel ∉ keys attributes) →
  call self "update" (update self attributes) s = (r, s') →
  (call self "links" (links self) s').1
  = (call self "links" (links self) s).1.
Proof.
  intros Hs Ho Hplain Hpk Hrels.
  assert (reserved "update" = true) as Hres by done.
  assert (reserved "links" = true) as Hres' by done.
  rewrite !(call_run s self o) by (done || by apply Ho).
  rewrite (update_outcome s self o attributes Hs).
  intros [= <- <-].
  pose proof (update_ordinary o attributes Ho Hplain) as Ho'.
  set (o' := Object (class_of o)
               (assign attributes
                  (assigned (class_of o) (keys attributes)) (attrs o)))
    in Ho' |- *.
  rewrite (call_run _ self o')
    by (apply lookup_insert_eq || by apply Ho').
  assert (∀ k, k ∉ keys attributes → attrs o' !! k = attrs o !! k)
    as Hsame.
  { intros k Hk. simpl. rewrite assign_lookup, decide_False; [done|].
    by intros [? _]%assigned_sub. }
  unfold links. run.
  rewrite (resource_uri_pair self s),
    (resource_uri_pair self (<[self := o']> s)).
  rewrite (resource_uri_agree s self o o' self Hs eq_refl)
    by (intros c Hc; by apply Hsame, Hpk).
  destruct (resource_uri self s).1 as [uri|e]; [|done].
  rewrite lookup_insert_eq, Hs. simpl.
  apply (links_loop_agree s self o o'); [done|done| |].
  - intros c Hc. by apply Hsame, Hpk.
  - intros rel Hrel. by apply Hsame, Hrels.
Qed.

(** X16: every name [required()] or [optional()] lists, and the name
    [primary_key()] returns, is the name of a column whose key is a key
    of the mapping [to_dict()] of an ordinary instance returns. *)
Theorem to_dict_has_metadata_names
    (s s1 s2 s3 : store) (self : loc) (o : object)
    (req opt : list string) (m : gmap string value) (x : string) :
  s !! self = Some o →
  ordinary o →
  required (class_of o) s = (Ok req, s1) →
  optional (class_of o) s = (Ok opt, s2) →
  to_dict self s = (Ok m, s3) →
  x ∈ req ∨ x ∈ opt ∨ primary_key self s = (Ok x, s) →
  ∃ c, c ∈ Table.columns (__table__ (class_of o))
       ∧ Column.name c = x ∧ is_Some (m !! Column.key c).
Proof.
  intros Hs _. unfold required, optional. run.
  rewrite required_loop_app, optional_loop_app. simpl.
  intros [= <- _] [= <- _] Hm Hx.
  assert (∀ c, c ∈ Table.columns (__table__ (class_of o)) →
               is_Some (m !! Column.key c)) as Hbound.
  { intros c Hc. rewrite (to_dict_run s self o Hs) in Hm.
    destruct (serialized o _ ∅) as [m'|] eqn:Hser; [|done].
    injection Hm as -> _.
    apply (serialized_bound _ _ _ _ _ Hser). left.
    by apply list_elem_of_fmap_2. }
  destruct Hx as [Hx|[Hx|Hx]].
  - apply list_elem_of_fmap in Hx as (c & -> & [_ Hc]%list_elem_of_filter).
    exists c. split; [done|]. split; [done|]. by apply Hbound.
  - apply list_elem_of_fmap in Hx as (c & -> & [_ Hc]%list_elem_of_filter).
    exists c. split; [done|]. split; [done|]. by apply Hbound.
  - rewrite (primary_key_run s self o Hs) in Hx.
    destruct (Table.primary_key_columns (__table__ (class_of o)))
      as [|c rest] eqn:Hcols; [done|].
    injection Hx as <-.
    assert (c ∈ Table.primary_key_columns (__table__ (class_of o)))
      as [_ Hc]%primary_key_columns_spec
      by (rewrite Hcols; apply elem_of_cons; by left).
    exists c. split; [done|]. split; [done|]. by apply Hbound.
Qed.

End Methods.

(** ** The methods at the sample instances *)

(** The methods with the open texts left empty. *)
Abbreviation str' := (str Sample.no_text Sample.no_text Sample.no_text).
Abbreviation resource_uri' :=
  (resource_uri Sample.no_text Sample.no_text Sample.no_text).
Abbreviation links' :=
  (links Sample.no_text Sample.no_text Sample.no_text).
Abbreviation linked' :=
  (linked Sample.no_text Sample.no_text Sample.no_text).

(** *** Checking the hypotheses at an instance *)

Lemma ordinary_checked (o : object) :
  forallb (λ kv, negb (reserved kv.1)) (map_to_list (attrs o)) = true →
  ordinary o.
Proof.
  intros Hall k Hk. destruct (attrs o !! k) as [v|] eqn:Hv; [|done].
  apply elem_of_map_to_list, list_elem_of_In in Hv.
  rewrite forallb_forall in Hall. specialize (Hall _ Hv). simpl in Hall.
  by rewrite Hk in Hall.
Defined.

Lemma plain_keys_checked (attributes : pydict) :
  forallb (λ k, negb (reserved k)) (keys attributes) = true →
  plain_keys attributes.
Proof.
  intros Hall k Hk%list_elem_of_In.
  rewrite forallb_forall in Hall. specialize (Hall _ Hk).
  by destruct (reserved k).
Defined.

Lemma no_nan_checked (o : object) (cols : list string) :
  forallb (λ k, match attrs o !! k with
                | Some (VDecimal (DNaN _)) => false
                | _ => true
                end) cols = true →
  no_nan o cols.
Proof.
  intros Hall k b Hk%list_elem_of_In Hv.
  rewrite forallb_forall in Hall. specialize (Hall _ Hk).
  by rewrite Hv in Hall.
Defined.

Lemma no_signalling_nan_checked (o : object) (cols : list string) :
  forallb (λ k, match attrs o !! k with
                | Some (VDecimal (DNaN true)) => false
                | _ => true
                end) cols = true →
  no_signalling_nan o cols.
Proof.
  intros Hall k Hk%list_elem_of_In Hv.
  rewrite forallb_forall in Hall. specialize (Hall _ Hk).
  by rewrite Hv in Hall.
Defined.

Lemma assignable_checked (cls : class) (ks : list string) :
  forallb (λ k, bool_decide (k ∉ read_only cls)) ks = true →
  ∀ k, k ∈ ks → k ∉ read_only cls.
Proof.
  intros Hall k Hk%list_elem_of_In.
  rewrite forallb_forall in Hall. specialize (Hall _ Hk).
  by apply bool_decide_eq_true_1 in Hall.
Defined.

Lemma sample_widget_unassignable (k : string) :
  k ∈ ["name"] → k ∉ read_only Sample.Widget.
Proof. apply assignable_checked. by vm_compute. Defined.

(** *** The specification at the samples *)

(** C1: for [order_items], whose primary key is [(order_id, item_id)],
    [required()] is [["quantity"]], [optional()] is empty and
    [primary_key()] is ["order_id"]: the column [item_id] is in none of
    them. *)
Lemma columns_not_partitioned_composite_key :
  ∃ req opt pk,
    required Sample.OrderItem Sample.heap = (Ok req, Sample.heap)
    ∧ optional Sample.OrderItem Sample.heap = (Ok opt, Sample.heap)
    ∧ primary_key 4 Sample.heap = (Ok pk, Sample.heap)
    ∧ ¬ columns_partitioned Sample.order_items req opt pk.
Proof.
  exists ["quantity"], [], "order_id".
  split; [reflexivity|]. split; [reflexivity|]. split; [by vm_compute|].
  intros [Hcover _].
  assert ("item_id" ∈ (list_to_set
            (Table.names Sample.order_items) : gset string)) as Hin
    by (apply elem_of_list_to_set; simpl; set_solver).
  rewrite <- Hcover in Hin. set_solver.
Qed.

Lemma columns_partitioned_widgets :
  ∃ req opt pk,
    required Sample.Widget Sample.heap = (Ok req, Sample.heap)
    ∧ optional Sample.Widget Sample.heap = (Ok opt, Sample.heap)
    ∧ primary_key 1 Sample.heap = (Ok pk, Sample.heap)
    ∧ columns_partitioned Sample.widgets req opt pk.
Proof.
  apply (columns_partitioned_single_key Sample.heap 1 Sample.gear).
  - reflexivity.
  - unfold Table.unique_names. apply (bool_decide_unpack _). by vm_compute.
  - by vm_compute.
Defined.

(** C7: under [PRIMARY KEY (item_id, order_id)] the first primary-key
    column the table declares is [order_id], and [primary_key()] returns
    ["item_id"]. *)
Lemma primary_key_not_first_declared :
  primary_key 7 Sample.heap = (Ok "item_id", Sample.heap)
  ∧ ∃ c after,
      Table.columns (__table__ (class_of Sample.entry)) = c :: after
      ∧ Column.primary_key c = true
      ∧ Column.name c = "order_id".
Proof.
  split; [by vm_compute|].
  by exists (Column.Build "order_id" "order_id" false true),
    [Column.Build "item_id" "item_id" false true;
     Column.Build "quantity" "quantity" false false].
Qed.

Lemma primary_key_of_line_items :
  primary_key 4 Sample.heap = (Ok "order_id", Sample.heap)
  ∧ primary_key 7 Sample.heap = (Ok "item_id", Sample.heap).
Proof.
  split.
  - apply (proj1 (primary_key_first_of_key Sample.heap 4 Sample.line
                    eq_refl (ordinary_checked Sample.line eq_refl))
             [] (Column.Build "order_id" "order_id" false true)
             [Column.Build "item_id" "item_id" false true;
              Column.Build "quantity" "quantity" false false]).
    + reflexivity.
    + reflexivity.
    + constructor.
    + reflexivity.
  - apply (proj2 (primary_key_first_of_key Sample.heap 7 Sample.entry
                    eq_refl (ordinary_checked Sample.entry eq_refl))
             "item_id" ["order_id"]
             (Column.Build "item_id" "item_id" false true)).
    + reflexivity.
    + apply (bool_decide_unpack _). by vm_compute.
    + simpl. apply elem_of_cons. right. apply elem_of_cons. by left.
    + reflexivity.
    + reflexivity.
Defined.

(** C2: an instance whose relationship to its owner is keyed "self":
    [links()] binds "self" to the owner's uri, not to the instance's. *)
Lemma links_self_overwritten :
  ∃ m uri,
    links' 5 Sample.heap = (Ok m, Sample.heap)
    ∧ resource_uri' 5 Sample.heap = (Ok uri, Sample.heap)
    ∧ m !! "self" ≠ Some uri.
Proof.
  exists {[ "self" := "/owners/7" ]}, "/pets/1".
  split; [by vm_compute|]. split; [by vm_compute|].
  rewrite lookup_singleton_eq. by intros [=].
Qed.

Lemma links_of_gear :
  ∃ m : gmap string string,
    links' 1 Sample.heap = (Ok m, Sample.heap)
    ∧ m !! "self" = Some "/widgets/42"
    ∧ ∀ k u, k ≠ "self" →
        (m !! k = Some u
         ↔ linked' Sample.heap Sample.gear (relationships Sample.Widget) k u).
Proof.
  apply (links_of_instance Sample.no_text Sample.no_text Sample.no_text
           Sample.heap 1 Sample.gear "/widgets/42").
  - reflexivity.
  - by vm_compute.
  - intros r Hin Hcoll. right. exists 2%positive, "/owners/7".
    apply elem_of_cons in Hin as [->|Hin].
    + split; [reflexivity|]. split; [by vm_compute|]. by intros [=].
    + apply list_elem_of_singleton in Hin as ->. discriminate Hcoll.
Defined.

(** C3: assigning [__weakref__], which no object lets be assigned:
    [update()] raises and returns nothing. *)
Lemma update_rejects_unassignable :
  update 1 [("__weakref__", VNone)] Sample.heap
  = (Raise AttributeError, Sample.heap).
Proof. by vm_compute. Qed.

Lemma update_name_of_gear :
  ∃ o' : object,
    update 1 [("name", VStr "foo")] Sample.heap
    = (Ok 1%positive, <[1%positive := o']> Sample.heap)
    ∧ class_of o' = Sample.Widget
    ∧ (∀ k, k ∈ ["name"] →
         attrs o' !! k = getitem [("name", VStr "foo")] k)
    ∧ (∀ k, k ∉ ["name"] → attrs o' !! k = attrs Sample.gear !! k).
Proof.
  apply (update_sets_attributes Sample.heap 1 Sample.gear
           [("name", VStr "foo")]).
  - reflexivity.
  - apply sample_widget_unassignable.
Defined.

Lemma update_fails_midway :
  ∃ o' : object,
    update 1 [("name", VStr "foo"); ("__weakref__", VNone);
              ("price", VNone)] Sample.heap
    = (Raise AttributeError, <[1%positive := o']> Sample.heap)
    ∧ update 1 [("name", VStr "foo")] Sample.heap
      = (Ok 1%positive, <[1%positive := o']> Sample.heap)
    ∧ class_of o' = Sample.Widget
    ∧ (∀ k, k ∈ ["name"] →
         attrs o' !! k = getitem [("name", VStr "foo")] k)
    ∧ (∀ k, k ∉ ["name"] → attrs o' !! k = attrs Sample.gear !! k).
Proof.
  apply (update_not_atomic Sample.heap 1 Sample.gear
           [("name", VStr "foo")] "__weakref__" VNone [("price", VNone)]).
  - reflexivity.
  - apply sample_widget_unassignable.
  - apply (bool_decide_unpack _). by vm_compute.
  - apply (bool_decide_unpack _). by vm_compute.
Defined.

(** C5: a class that set [__url__] over a table without primary key:
    [resource_uri()] raises [IndexError]. *)
Lemma resource_uri_without_key :
  __url__ (class_of Sample.memo) = Some "/notes"
  ∧ resource_uri' 9 Sample.heap = (Raise IndexError, Sample.heap).
Proof. split; [reflexivity|by vm_compute]. Qed.

Lemma resource_uri_of_gear :
  resource_uri' 1 Sample.heap = (Ok "/widgets/42", Sample.heap).
Proof.
  pose proof (resource_uri_concat Sample.no_text Sample.no_text
                Sample.no_text Sample.heap 1 Sample.gear
                "/widgets" "id" (VInt 42) eq_refl
                (ordinary_checked Sample.gear eq_refl) eq_refl)
    as Hconcat.
  refine (proj2 (proj2 (proj2 (proj2 (proj2 (proj2
            (Hconcat _ _)))))) eq_refl eq_refl).
  - by vm_compute.
  - reflexivity.
Defined.

(** C6: the column [owner_id] of [pets] goes by the key [owner], and
    [to_dict()] binds [owner], not [owner_id]; a widget priced
    [Decimal("sNaN")] has no mapping: [to_dict()] raises
    [ValueError]. *)
Lemma to_dict_keys_not_names :
  (∃ m : gmap string value,
     to_dict 8 Sample.heap = (Ok m, Sample.heap)
     ∧ "owner_id" ∈ Table.names (__table__ (class_of Sample.tom))
     ∧ m !! "owner_id" = None
     ∧ m !! "owner" = Some (VInt 5))
  ∧ to_dict 10 Sample.heap = (Raise ValueError, Sample.heap).
Proof.
  split; [|by vm_compute].
  exists {[ "id" := VInt 1; "owner" := VInt 5 ]}.
  split; [by vm_compute|]. split; [|by vm_compute].
  apply (bool_decide_unpack _). by vm_compute.
Qed.

Lemma to_dict_of_gear :
  ∃ m : gmap string value,
    to_dict 1 Sample.heap = (Ok m, Sample.heap)
    ∧ dom m = list_to_set (Table.columns_keys Sample.widgets)
    ∧ (∀ k d, k ∈ Table.columns_keys Sample.widgets →
         attrs Sample.gear !! k = Some (VDecimal d) →
         ∃ f, float_of_decimal d = Some f ∧ m !! k = Some (VFloat f))
    ∧ (∀ k v, k ∈ Table.columns_keys Sample.widgets →
         attrs Sample.gear !! k = Some v → (∀ d, v ≠ VDecimal d) →
         m !! k = Some v)
    ∧ (∀ k, k ∈ Table.columns_keys Sample.widgets →
         attrs Sample.gear !! k = Some (VDecimal Sample.decimal_3_14) →
         m !! k = Some (VFloat Sample.float_3_14)).
Proof.
  apply (to_dict_columns Sample.heap 1 Sample.gear).
  - reflexivity.
  - apply ordinary_checked. reflexivity.
  - apply no_signalling_nan_checked. by vm_compute.
Defined.

(** C9: a widget priced [Decimal("sNaN")]: the calls raise and return no
    mapping; a widget priced [Decimal("NaN")]: each call binds [price]
    to a float that is not equal to itself, so that the two mappings do
    not compare equal. *)
Lemma to_dict_twice_nan :
  (first ← to_dict 10; second ← to_dict 10; mret (first, second))
    Sample.heap
  = (Raise ValueError, Sample.heap)
  ∧ ∃ (m : gmap string value) (f : spec_float),
      (first ← to_dict 11; second ← to_dict 11; mret (first, second))
        Sample.heap
      = (Ok (m, m), Sample.heap)
      ∧ m !! "price" = Some (VFloat f)
      ∧ SFeqb f f = false.
Proof.
  split; [by vm_compute|].
  exists {[ "id" := VInt 45; "name" := VStr "odd";
            "price" := VFloat S754_nan; "owner_id" := VNone ]}, S754_nan.
  split; [by vm_compute|]. split; by vm_compute.
Qed.

Lemma to_dict_twice_of_gear :
  ∃ m : gmap string value,
    (first ← to_dict 1; second ← to_dict 1; mret (first, second)) Sample.heap
    = (Ok (m, m), Sample.heap)
    ∧ (∀ k d, k ∈ Table.columns_keys Sample.widgets →
         attrs Sample.gear !! k = Some (VDecimal d) →
         ∃ f, m !! k = Some (VFloat f) ∧ SFeqb f f = true).
Proof.
  apply (to_dict_idempotent Sample.heap 1 Sample.gear).
  - reflexivity.
  - apply ordinary_checked. reflexivity.
  - apply no_nan_checked. by vm_compute.
Defined.

(** C10: the column name [owner_id] of [pets] is no attribute of the
    instance, and [to_dict()] does not bind it. *)
Lemma to_dict_missing_name_unbound :
  "owner_id" ∈ Table.names (__table__ (class_of Sample.tom))
  ∧ attrs Sample.tom !! "owner_id" = None
  ∧ ∃ m : gmap string value,
      to_dict 8 Sample.heap = (Ok m, Sample.heap)
      ∧ m !! "owner_id" = None.
Proof.
  split; [apply (bool_decide_unpack _); by vm_compute|].
  split; [reflexivity|].
  exists {[ "id" := VInt 1; "owner" := VInt 5 ]}.
  split; by vm_compute.
Qed.

Lemma to_dict_of_stray :
  to_dict 3 Sample.heap ≠ (Raise AttributeError, Sample.heap)
  ∧ (∀ m s', to_dict 3 Sample.heap = (Ok m, s') →
       m !! "owner_id" = Some VNone)
  ∧ (no_signalling_nan Sample.stray (Table.columns_keys Sample.widgets) →
     ∃ m, to_dict 3 Sample.heap = (Ok m, Sample.heap)).
Proof.
  apply (to_dict_missing_attribute Sample.heap 3 Sample.stray "owner_id").
  - reflexivity.
  - apply ordinary_checked. reflexivity.
  - apply (bool_decide_unpack _). by vm_compute.
  - reflexivity.
  - reflexivity.
Defined.

(** [float] of a few decimals: [0.1], [1e23] (rounded down), a tie
    rounded to even, the least subnormal, an overflow, the infinities
    and the NaNs. *)
Example float_of_decimal_samples :
  float_of_decimal (Decimal false 1 (-1))
  = Some (S754_finite false 7205759403792794 (-56))
  ∧ float_of_decimal (Decimal false 1 23)
    = Some (S754_finite false 5960464477539062 24)
  ∧ float_of_decimal (Decimal true 9007199254740993 0)
    = Some (S754_finite true 4503599627370496 1)
  ∧ float_of_decimal (Decimal false 5 (-324))
    = Some (S754_finite false 1 (-1074))
  ∧ float_of_decimal (Decimal false 1 400) = Some (S754_infinity false)
  ∧ float_of_decimal Sample.decimal_3_14 = Some Sample.float_3_14
  ∧ float_of_decimal (DInfinity true) = Some (S754_infinity true)
  ∧ float_of_decimal (DNaN false) = Some S754_nan
  ∧ float_of_decimal (DNaN true) = None.
Proof. repeat split; by vm_compute. Qed.

(** [str] of a few values. *)
Example str_samples :
  str' (VInt 42) = "42" ∧ str' (VInt 0) = "0" ∧ str' (VInt (-7)) = "-7"
  ∧ str' (VInt 1234567890) = "1234567890"
  ∧ str' (VStr "a-1") = "a-1" ∧ str' VNone = "None"
  ∧ str' (VBool true) = "True" ∧ str' (VBool false) = "False".
Proof. repeat split; by vm_compute. Qed.

(** The sample widget, method by method. *)
Example required_optional_of_widgets :
  required Sample.Widget Sample.heap = (Ok ["name"], Sample.heap)
  ∧ optional Sample.Widget Sample.heap
    = (Ok ["price"; "owner_id"], Sample.heap).
Proof. split; reflexivity. Qed.

Example to_dict_gear_price :
  to_dict 1 Sample.heap
  = (Ok {[ "id" := VInt 42; "name" := VStr "gear";
           "price" := VFloat Sample.float_3_14; "owner_id" := VNone ]},
     Sample.heap).
Proof. by vm_compute. Qed.

Example links_gear_entries :
  links' 1 Sample.heap
  = (Ok {[ "self" := "/widgets/42"; "owner" := "/owners/7" ]}, Sample.heap).
Proof. by vm_compute. Qed.

Example links_unrouted :
  links' 6 Sample.heap = (Raise TypeError, Sample.heap).
Proof. by vm_compute. Qed.

(** A primary-key column that goes by a key of its own: [primary_key()]
    returns its name, under which the instance has no attribute. *)
Example resource_uri_keyed_column :
  primary_key 12 Sample.heap = (Ok "id", Sample.heap)
  ∧ resource_uri' 12 Sample.heap = (Raise AttributeError, Sample.heap)
  ∧ to_dict 12 Sample.heap
    = (Ok {[ "ident" := VInt 3; "word" := VStr "blue" ]}, Sample.heap).
Proof. repeat split; by vm_compute. Qed.

(** Assigning [__class__] a value that is no class. *)
Example update_class_of_gear :
  update 1 [("name", VStr "foo"); ("__class__", VInt 5)] Sample.heap
  = (Raise TypeError,
     <[1%positive :=
         Object Sample.Widget (<["name" := VStr "foo"]> (attrs Sample.gear))]>
       Sample.heap).
Proof. by vm_compute. Qed.

(** ** Further properties at the sample instances *)

Lemma resource_uri_outcome_of_ghost :
  resource_uri' 6 Sample.heap = (Raise TypeError, Sample.heap).
Proof.
  apply (proj1 (resource_uri_outcome Sample.no_text Sample.no_text
                  Sample.no_text Sample.heap 6 Sample.ghost eq_refl
                  (ordinary_checked Sample.ghost eq_refl))).
  reflexivity.
Defined.

Lemma links_returns_only_if_at_gear :
  (∃ uri, resource_uri' 1 Sample.heap = (Ok uri, Sample.heap))
  ∧ ∀ r, r ∈ relationships Sample.Widget →
      contains "collection" (Relationship.key r) = false →
      ∃ v, attrs Sample.gear !! Relationship.key r = Some v
           ∧ (truthy v = false
              ∨ ∃ l u, v = VRef l
                       ∧ resource_uri' l Sample.heap = (Ok u, Sample.heap)).
Proof.
  apply (links_returns_only_if Sample.no_text Sample.no_text Sample.no_text
           Sample.heap Sample.heap 1 Sample.gear
           {[ "self" := "/widgets/42"; "owner" := "/owners/7" ]}).
  - reflexivity.
  - by vm_compute.
Defined.

Lemma links_entries_of_rex :
  ({[ "self" := "/owners/7" ]} : gmap string string) !! "self"
  = Some "/owners/7"
  ↔ linked' Sample.heap Sample.rex (relationships Sample.Selfish)
      "self" "/owners/7"
    ∨ ("self" = "self"
       ∧ resource_uri' 5 Sample.heap = (Ok "/owners/7", Sample.heap)
       ∧ ∀ u', ¬ linked' Sample.heap Sample.rex
                   (relationships Sample.Selfish) "self" u').
Proof.
  apply (links_entries Sample.no_text Sample.no_text Sample.no_text
           Sample.heap Sample.heap 5 Sample.rex).
  - reflexivity.
  - by vm_compute.
Defined.

Lemma links_keys_of_gear :
  is_Some (({[ "self" := "/widgets/42"; "owner" := "/owners/7" ]}
            : gmap string string) !! "self")
  ∧ ∀ k pre post,
      is_Some (({[ "self" := "/widgets/42"; "owner" := "/owners/7" ]}
                : gmap string string) !! k) →
      k ≠ pre +:+ "collection" +:+ post.
Proof.
  apply (links_keys Sample.no_text Sample.no_text Sample.no_text
           Sample.heap Sample.heap 1).
  by vm_compute.
Defined.


Lemma update_twice_at_gear :
  call 1 "update" (update 1 [("price", VNone); ("label", VNone)])
    (call 1 "update" (update 1 [("price", VNone); ("label", VNone)])
       Sample.heap).2
  = call 1 "update" (update 1 [("price", VNone); ("label", VNone)])
      Sample.heap.
Proof.
  apply (update_twice Sample.heap 1 Sample.gear).
  - reflexivity.
  - apply ordinary_checked. reflexivity.
  - apply plain_keys_checked. reflexivity.
Defined.

Lemma update_app_at_gear :
  call 1 "update"
    (update 1 ([("name", VStr "foo")] ++ [("price", VNone)])) Sample.heap
  = (call 1 "update" (update 1 [("name", VStr "foo")]) ;;
     call 1 "update" (update 1 [("price", VNone)])) Sample.heap.
Proof.
  apply (update_app Sample.heap 1 Sample.gear).
  - reflexivity.
  - apply ordinary_checked. reflexivity.
  - apply plain_keys_checked. reflexivity.
  - intros k ->%list_elem_of_singleton [=]%list_elem_of_singleton.
Defined.

Lemma update_hides_to_dict_at_gear :
  (update 1 [("to_dict", VNone)] ;; call 1 "to_dict" (to_dict 1)) Sample.heap
  = (Raise TypeError, (update 1 [("to_dict", VNone)] Sample.heap).2).
Proof.
  apply (update_hides_method Sample.heap 1 Sample.gear).
  - reflexivity.
  - apply assignable_checked. by vm_compute.
  - apply list_elem_of_singleton. reflexivity.
Defined.

Lemma update_then_to_dict_at_gear :
  ∃ (m m' : gmap string value) (s' : store),
    to_dict 1 Sample.heap = (Ok m, Sample.heap)
    ∧ (call 1 "update"
         (update 1 [("price", VDecimal (Decimal false 1 (-1)));
                    ("note", VStr "new")]) ;;
       call 1 "to_dict" (to_dict 1)) Sample.heap
      = (Ok m', s')
    ∧ dom m' = dom m
    ∧ (∀ k v, k ∈ Table.columns_keys Sample.widgets →
         getitem [("price", VDecimal (Decimal false 1 (-1)));
                  ("note", VStr "new")] k = Some v →
         m' !! k = widened v)
    ∧ (∀ k, k ∉ ["price"; "note"] → m' !! k = m !! k).
Proof.
  apply (update_then_to_dict Sample.heap 1 Sample.gear
           [("price", VDecimal (Decimal false 1 (-1)));
            ("note", VStr "new")]).
  - reflexivity.
  - apply ordinary_checked. reflexivity.
  - apply plain_keys_checked. reflexivity.
  - apply assignable_checked. by vm_compute.
  - apply no_signalling_nan_checked. by vm_compute.
  - intros k. cbn [getitem].
    destruct (String.eqb "price" k); [by intros [=]|].
    destruct (String.eqb "note" k); by intros [=].
Defined.

Lemma update_keeps_resource_uri_at_gear :
  ∃ s' : store,
    call 1 "update" (update 1 [("name", VStr "foo"); ("label", VNone)])
      Sample.heap
    = (Raise AttributeError, s')
    ∧ call 1 "resource_uri" (resource_uri' 1) s'
      = ((call 1 "resource_uri" (resource_uri' 1) Sample.heap).1, s').
Proof.
  eexists. split; [by vm_compute|].
  apply (update_keeps_resource_uri Sample.no_text Sample.no_text
           Sample.no_text Sample.heap _ 1 Sample.gear
           [("name", VStr "foo"); ("label", VNone)] "id"
           (Raise AttributeError)).
  - reflexivity.
  - apply ordinary_checked. reflexivity.
  - apply plain_keys_checked. reflexivity.
  - by vm_compute.
  - apply (bool_decide_unpack _). by vm_compute.
  - by vm_compute.
Defined.

Lemma to_dict_no_decimal_at_gear :
  to_dict 1 Sample.heap
  = (Ok {[ "id" := VInt 42; "name" := VStr "gear";
           "price" := VFloat Sample.float_3_14; "owner_id" := VNone ]},
     Sample.heap)
  ∧ ({[ "id" := VInt 42; "name" := VStr "gear";
        "price" := VFloat Sample.float_3_14; "owner_id" := VNone ]}
     : gmap string value) !! "price" ≠ Some (VDecimal Sample.decimal_3_14).
Proof.
  assert (to_dict 1 Sample.heap
          = (Ok {[ "id" := VInt 42; "name" := VStr "gear";
                   "price" := VFloat Sample.float_3_14;
                   "owner_id" := VNone ]}, Sample.heap)) as Hrun
    by (by vm_compute).
  split; [exact Hrun|].
  exact (to_dict_no_decimal Sample.heap Sample.heap 1 _ "price"
           Sample.decimal_3_14 Hrun).
Defined.

Lemma columns_left_out_of_order_items :
  ("item_id" ∈ Table.names Sample.order_items
   ∧ ("item_id" ∉ ["quantity"]) ∧ ("item_id" ∉ ([] : list string)))
  ↔ (∃ c, c ∈ Table.columns Sample.order_items
          ∧ Column.name c = "item_id"
          ∧ Column.primary_key c = true ∧ Column.nullable c = false).
Proof.
  apply (columns_left_out Sample.OrderItem Sample.heap Sample.heap
           Sample.heap).
  - unfold Table.unique_names. apply (bool_decide_unpack _). by vm_compute.
  - reflexivity.
  - reflexivity.
Defined.

Lemma primary_key_not_required_at_gear : "id" ∉ ["name"].
Proof.
  apply (primary_key_not_required Sample.heap Sample.heap 1 Sample.gear).
  - reflexivity.
  - unfold Table.unique_names. apply (bool_decide_unpack _). by vm_compute.
  - by vm_compute.
  - reflexivity.
Defined.


Lemma update_keeps_links_at_gear :
  ∃ s' : store,
    call 1 "update" (update 1 [("name", VStr "foo"); ("label", VNone)])
      Sample.heap
    = (Raise AttributeError, s')
    ∧ (call 1 "links" (links' 1) s').1
      = (call 1 "links" (links' 1) Sample.heap).1.
Proof.
  eexists. split; [by vm_compute|].
  apply (update_keeps_links Sample.no_text Sample.no_text Sample.no_text
           Sample.heap _ 1 Sample.gear
           [("name", VStr "foo"); ("label", VNone)]
           (Raise AttributeError)).
  - reflexivity.
  - apply ordinary_checked. reflexivity.
  - apply plain_keys_checked. reflexivity.
  - intros c Hc.
    assert (Table.primary_key_columns (__table__ (class_of Sample.gear))
            = [Column.Build "id" "id" false true]) as Hkey
      by (by vm_compute).
    rewrite Hkey in Hc. apply list_elem_of_singleton in Hc as ->.
    apply (bool_decide_unpack _). by vm_compute.
  - intros rel Hrel.
    apply elem_of_cons in Hrel as [->|Hrel];
      [|apply list_elem_of_singleton in Hrel as ->];
      apply (bool_decide_unpack _); by vm_compute.
  - by vm_compute.
Defined.

Lemma to_dict_has_owner_of_tom :
  ∃ c, c ∈ Table.columns Sample.pets
       ∧ Column.name c = "owner_id"
       ∧ is_Some (({[ "id" := VInt 1; "owner" := VInt 5 ]}
                   : gmap string value) !! Column.key c).
Proof.
  apply (to_dict_has_metadata_names Sample.heap Sample.heap Sample.heap
           Sample.heap 8 Sample.tom [] ["owner_id"]).
  - reflexivity.
  - apply ordinary_checked. reflexivity.
  - by vm_compute.
  - by vm_compute.
  - by vm_compute.
  - right. left. apply (bool_decide_unpack _). by vm_compute.
Defined.

End Model.
